(** * Resume analyzer: a shallow embedding of [resumeeee.py]

    The analysis core of the program is three functions: [extract_text]
    (dispatch on the file name), the fallback [flesch_reading_ease] and
    [analyze_resume].  They are embedded below as Rocq functions over

    - Python [str] values as lists of Unicode code points,
    - the five regular expressions of the source as terms of a small regex
      type, run by a greedy backtracking matcher ([re.search], [re.findall]),
    - Python [float] values as IEEE 754 binary64 numbers, computed with the
      standard library's [SpecFloat] operations at precision 53. *)

From Stdlib Require Import Ascii String DecimalString.
From Stdlib Require Import ZArith NArith List Bool Lia.
From Stdlib Require Import Floats.SpecFloat.
Import ListNotations.

Set Implicit Arguments.

Open Scope Z_scope.

(** ** Python strings *)

(** A [str] is a sequence of code points. *)
Definition char := N.
Definition ustr := list char.

(** ASCII literals of the source, as code points. *)
Definition str (s : string) : ustr := map N_of_ascii (list_ascii_of_string s).

Definition ch (a : ascii) : char := N_of_ascii a.

Arguments str s%_string.
Arguments ch a%_char.

Definition char_eqb (a b : char) : bool := N.eqb a b.

Definition between (lo hi c : char) : bool := (N.leb lo c && N.leb c hi)%bool.

Definition is_ascii (c : char) : bool := N.ltb c 128%N.

Fixpoint text_eqb (a b : ustr) : bool :=
  match a, b with
  | [], [] => true
  | x :: a', y :: b' => (char_eqb x y && text_eqb a' b')%bool
  | _, _ => false
  end.

(** [prefix.startswith]: [startswith p s] is [s.startswith(p)]. *)
Fixpoint startswith (p s : ustr) : bool :=
  match p, s with
  | [], _ => true
  | x :: p', y :: s' => (char_eqb x y && startswith p' s')%bool
  | _ :: _, [] => false
  end.

(** [s.endswith(p)]. *)
Definition endswith (s p : ustr) : bool := startswith (rev p) (rev s).

(** [p in s] on strings: [p] occurs as a contiguous substring of [s]. *)
Fixpoint contains (s p : ustr) : bool :=
  (startswith p s ||
   match s with
   | [] => false
   | _ :: s' => contains s' p
   end)%bool.

(** ** Python floats: IEEE 754 binary64 *)

Module Float.

Definition float := spec_float.

Definition prec : Z := 53.
Definition emax : Z := 1024.

Definition add : float -> float -> float := SFadd prec emax.
Definition sub : float -> float -> float := SFsub prec emax.
Definition mul : float -> float -> float := SFmul prec emax.
Definition div : float -> float -> float := SFdiv prec emax.
Definition ltb : float -> float -> bool := SFltb.
Definition leb : float -> float -> bool := SFleb.

(** [float(n)] for a Python int: the nearest binary64 number. *)
Definition of_Z (n : Z) : float := binary_normalize prec emax n 0 false.

(** The quotient [n / d] of two integers, rounded once to nearest even.
    It is what Python's true division [n / d] of two ints returns for
    [d > 0], and what a decimal literal [n / 10^k] denotes. *)
Definition ratio (n : Z) (d : positive) : float :=
  match n with
  | Z0 => S754_zero false
  | Zpos m => div (S754_finite false m 0) (S754_finite false d 0)
  | Zneg m => div (S754_finite true m 0) (S754_finite false d 0)
  end.

(** [int(x)]: truncation toward zero; raises on infinities and nan. *)
Definition to_int (x : float) : option Z :=
  match x with
  | S754_zero _ => Some 0
  | S754_finite s m e =>
      let a := match e with
               | Z0 => Zpos m
               | Zpos p => Z.shiftl (Zpos m) (Zpos p)
               | Zneg p => Z.shiftr (Zpos m) (Zpos p)
               end in
      Some (if s then - a else a)
  | S754_infinity _ | S754_nan => None
  end.

(** [round(x, 1)]: the exact value of [x] is rounded to the nearest
    multiple of one tenth (ties to even), and the result is the binary64
    number nearest to that decimal; infinities and nan are returned as
    they are. *)
Definition round_half_even (n : Z) (d : positive) : Z :=
  let q := n / Zpos d in
  let r := n mod Zpos d in
  match Z.compare (2 * r) (Zpos d) with
  | Lt => q
  | Gt => q + 1
  | Eq => if Z.even q then q else q + 1
  end.

Definition round1 (x : float) : float :=
  match x with
  | S754_finite s m e =>
      let tenths :=
        match e with
        | Z0 => 10 * Zpos m
        | Zpos p => 10 * Z.shiftl (Zpos m) (Zpos p)
        | Zneg p => round_half_even (10 * Zpos m) (Pos.shiftl 1 (Npos p))
        end in
      match tenths with
      | Z0 => S754_zero s
      | _ => ratio (if s then - tenths else tenths) 10
      end
  | _ => x
  end.

End Float.

(** ** Character tables

    On ASCII the classes that [re] and [str] use are fixed and written out.
    Beyond ASCII they are those of the Unicode database of the interpreter,
    which is not part of the program: it is an interface, and everything
    below holds for each of its instances. *)

Class Unicode := {
  (** [str.isalnum] of a code point above 127. *)
  uni_isalnum : char -> bool;
  (** [str.isspace] of a code point above 127. *)
  uni_isspace : char -> bool;
  (** [str.isdecimal] of a code point above 127. *)
  uni_isdecimal : char -> bool;
  (** Lower-casing of a code point above 127, which can give several code
      points and can depend on what precedes (nearest first) and follows
      it, as capital sigma does. *)
  uni_lower : ustr -> char -> ustr -> ustr;
  (** Title-casing of a code point above 127. *)
  uni_title : char -> ustr
}.

Definition ascii_isupper (c : char) : bool := between (ch "A") (ch "Z") c.
Definition ascii_islower (c : char) : bool := between (ch "a") (ch "z") c.
Definition ascii_isdigit (c : char) : bool := between (ch "0") (ch "9") c.

Definition ascii_lower (c : char) : char :=
  if ascii_isupper c then (c + 32)%N else c.

Definition ascii_upper (c : char) : char :=
  if ascii_islower c then (c - 32)%N else c.

Section Classes.

Context {U : Unicode}.

(** [\w]: alphanumeric or underscore. *)
Definition is_word (c : char) : bool :=
  if is_ascii c
  then (ascii_isupper c || ascii_islower c || ascii_isdigit c
        || char_eqb c (ch "_"))%bool
  else uni_isalnum c.

(** [\s], and the separators of [str.split()]: tab, line feed, vertical
    tab, form feed, carriage return, the four separators 28 to 31 and the
    space. *)
Definition is_space (c : char) : bool :=
  if is_ascii c then (between 9%N 13%N c || between 28%N 32%N c)%bool
  else uni_isspace c.

(** [\d]. *)
Definition is_digit (c : char) : bool :=
  if is_ascii c then ascii_isdigit c else uni_isdecimal c.

(** [\S]. *)
Definition not_space (c : char) : bool := negb (is_space c).

(** [text.lower()]; [before] holds the code points already passed,
    nearest first. *)
Fixpoint lower_from (before s : ustr) : ustr :=
  match s with
  | [] => []
  | c :: rest =>
      (if is_ascii c then [ascii_lower c] else uni_lower before c rest)
        ++ lower_from (c :: before) rest
  end.

Definition lower (s : ustr) : ustr := lower_from [] s.

(** The part of [(a ++ rest).lower()] that comes from [a]. *)
Fixpoint lower_from_prefix (before a rest : ustr) : ustr :=
  match a with
  | [] => []
  | c :: a' =>
      (if is_ascii c then [ascii_lower c]
       else uni_lower before c (a' ++ rest))
        ++ lower_from_prefix (c :: before) a' rest
  end.

(** [s.capitalize()]: the first code point in title case, the others in
    lower case. *)
Definition capitalize (s : ustr) : ustr :=
  match s with
  | [] => []
  | c :: rest =>
      (if is_ascii c then [ascii_upper c] else uni_title c)
        ++ lower_from [c] rest
  end.

(** [s.split()]: the maximal runs of code points that are not white
    space, in order.  [cur] is the run being read, last code point
    first. *)
Fixpoint split_from (cur s : ustr) : list ustr :=
  match s with
  | [] => match cur with [] => [] | _ => [rev cur] end
  | c :: rest =>
      if is_space c
      then match cur with
           | [] => split_from [] rest
           | _ => rev cur :: split_from [] rest
           end
      else split_from (c :: cur) rest
  end.

Definition split (s : ustr) : list ustr := split_from [] s.

End Classes.

(** A literal character set [[...]] of ASCII characters. *)
Definition one_of (set : string) (c : char) : bool :=
  existsb (char_eqb c) (str set).

Arguments one_of set%_string c.

(** ** Regular expressions

    Each pattern of the source is a sequence of character classes, each
    under a greedy quantifier: [x] is [{1,1}], [x+] is [{1,}], [x?] is
    [{0,1}] and [x{8,}] has no upper bound. *)

Module Re.

Record item := Rep {
  cls : char -> bool;
  lo : nat;
  hi : option nat
}.

Definition regex := list item.

Definition one (p : char -> bool) : item := Rep p 1 (Some 1%nat).
Definition plus (p : char -> bool) : item := Rep p 1 None.
Definition opt (p : char -> bool) : item := Rep p 0 (Some 1%nat).
Definition at_least (n : nat) (p : char -> bool) : item := Rep p n None.

(** How many code points at the head of [s] a quantified class takes when
    it takes as many as it can: all those in the class, up to the bound. *)
Fixpoint run (p : char -> bool) (bound : option nat) (s : ustr) : nat :=
  match s with
  | [] => O
  | c :: rest =>
      if p c
      then match bound with
           | Some O => O
           | Some (S b) => S (run p (Some b) rest)
           | None => S (run p None rest)
           end
      else O
  end.

(** Backtracking: the class has taken [lo + d] code points; the rest of
    the pattern, [k], is tried there, then with one code point given
    back, down to [lo].  The result is the length of the whole match. *)
Fixpoint backtrack (k : ustr -> option nat) (s : ustr) (lo d : nat)
  : option nat :=
  match k (skipn (lo + d) s) with
  | Some n => Some (lo + d + n)%nat
  | None =>
      match d with
      | O => None
      | S d' => backtrack k s lo d'
      end
  end.

(** A match of [r] that starts at the head of [s]: its length. *)
Fixpoint match_here (r : regex) (s : ustr) : option nat :=
  match r with
  | [] => Some O
  | Rep p lo hi :: r' =>
      let n := run p hi s in
      if (n <? lo)%nat then None
      else backtrack (match_here r') s lo (n - lo)
  end.

(** [re.search(r, s)], as a truth value: is there a match starting at
    some position of [s]. *)
Fixpoint search (r : regex) (s : ustr) : bool :=
  match match_here r s with
  | Some _ => true
  | None =>
      match s with
      | [] => false
      | _ :: rest => search r rest
      end
  end.

(** [re.findall(r, s)]: the matches from left to right, each search
    resuming where the last match ended.  [skip] counts the code points
    of the last match that are still to be passed.  No pattern of the
    program matches the empty string; an empty match is recorded and the
    search moves on by one code point. *)
Fixpoint findall_from (r : regex) (skip : nat) (s : ustr) : list ustr :=
  match s with
  | [] =>
      match skip, match_here r [] with
      | O, Some _ => [[]]
      | _, _ => []
      end
  | _ :: rest =>
      match skip with
      | S k => findall_from r k rest
      | O =>
          match match_here r s with
          | Some (S n) => firstn (S n) s :: findall_from r n rest
          | Some O => [] :: findall_from r O rest
          | None => findall_from r O rest
          end
      end
  end.

Definition findall (r : regex) (s : ustr) : list ustr := findall_from r O s.

End Re.

(** ** The readability scorer *)

(** [n or 1] for a length [n]: [n] unless it is zero.  The result is never
    zero, which its type records: it can be a divisor. *)
Definition or_1 (n : nat) : positive :=
  match n with
  | O => 1%positive
  | S k => Pos.of_succ_nat k
  end.

(** [sum(...)] of lengths. *)
Definition sum (l : list nat) : nat := fold_left Nat.add l O.

Section Scorer.

Context {U : Unicode}.

(** [r'[.!?]'], [r'\w+'] and [r'[aeiouyAEIOUY]'] *)
Definition sentence_re : Re.regex := [Re.one (one_of ".!?")].
Definition word_re : Re.regex := [Re.plus is_word].
Definition vowel_re : Re.regex := [Re.one (one_of "aeiouyAEIOUY")].

(** The function defined when [textstat] cannot be imported.  The
    literals 206.835, 1.015 and 84.6 are the binary64 numbers nearest to
    these decimals. *)
Definition flesch_reading_ease (text : ustr) : Float.float :=
  let sentences := or_1 (length (Re.findall sentence_re text)) in
  let words := or_1 (length (Re.findall word_re text)) in
  let syllables :=
    or_1 (sum (map (fun w => length (Re.findall vowel_re w)) (split text))) in
  let score :=
    Float.sub
      (Float.sub (Float.ratio 206835 1000)
         (Float.mul (Float.ratio 1015 1000)
            (Float.ratio (Zpos words) sentences)))
      (Float.mul (Float.ratio 846 10)
         (Float.ratio (Zpos syllables) words)) in
  Float.round1 score.

End Scorer.

(** ** Text extraction

    The two extraction libraries are outside the program.  A call to one
    of them is an event of the run; it returns a value or raises. *)

Record UploadedFile := {
  name : ustr;
  data : list N
}.

Inductive event :=
| PdfOpen (f : UploadedFile)
| DocxProcess (f : UploadedFile).

(** A computation: the library calls it made, in order, and its value, or
    [None] when an exception left it. *)
Definition io (A : Type) : Type := list event * option A.

Definition ret {A} (a : A) : io A := ([], Some a).

Definition bind {A B} (m : io A) (k : A -> io B) : io B :=
  match m with
  | (tr, None) => (tr, None)
  | (tr, Some a) => let (tr', b) := k a in (tr ++ tr', b)
  end.

Definition call {A} (e : event) (result : option A) : io A := ([e], result).

Notation "x <- m ;; k" := (bind m (fun x => k))
  (at level 61, m at next level, right associativity).

Section Extraction.

(** [pdfplumber.open(f).pages], each page with what its
    [extract_text()] returns ([None] for a page with no text), and
    [docx2txt.process(f)]; [None] when the library raises. *)
Variable pdf_pages : UploadedFile -> option (list (option ustr)).
Variable docx2txt_process : UploadedFile -> option ustr.

(** [t or ""] *)
Definition or_empty (t : option ustr) : ustr :=
  match t with
  | Some s => s
  | None => []
  end.

Definition extract_text_from_pdf (uploaded_file : UploadedFile) : io ustr :=
  pages <- call (PdfOpen uploaded_file) (pdf_pages uploaded_file) ;;
  ret (fold_left (fun text page => text ++ or_empty page) pages []).

Definition extract_text_from_docx (uploaded_file : UploadedFile) : io ustr :=
  call (DocxProcess uploaded_file) (docx2txt_process uploaded_file).

Definition extract_text (uploaded_file : UploadedFile) : io ustr :=
  if endswith (name uploaded_file) (str ".pdf")
  then extract_text_from_pdf uploaded_file
  else if endswith (name uploaded_file) (str ".docx")
  then extract_text_from_docx uploaded_file
  else ret [].

End Extraction.

(** ** The analyzer *)

(** The result tuple [(suggestions, word_count, readability_score, score)]. *)
Record analysis := {
  suggestions : list ustr;
  word_count : Z;
  readability_score : Float.float;
  score : Z
}.

(** The two symbols that open the messages: a warning sign followed by a
    variation selector, and a light bulb. *)
Definition warning_sign : ustr := [9888; 65039]%N.
Definition light_bulb : ustr := [128161]%N.
Definition en_dash : ustr := [8211]%N.

Definition required_sections : list ustr :=
  [str "education"; str "experience"; str "projects"; str "skills"].

Definition action_verbs : list ustr :=
  [str "developed"; str "led"; str "created"; str "designed"; str "managed";
   str "implemented"; str "analyzed"; str "organized"].

Definition tech_keywords : list ustr :=
  [str "python"; str "java"; str "sql"; str "flask"; str "spring";
   str "react"; str "docker"; str "aws"; str "html"; str "css";
   str "javascript"].

Definition total_checks : positive := 7.

Definition too_short : ustr :=
  warning_sign ++ str " Resume is too short. Aim for at least **300 words**.".

Definition too_long : ustr :=
  warning_sign ++ str " Resume might be too long. Keep it concise (1"
    ++ en_dash ++ str "2 pages).".

Definition no_action_verbs : ustr :=
  light_bulb ++ str " Add **action verbs** like *developed*, *implemented*, or *designed* to describe achievements.".

Definition no_tech_keywords : ustr :=
  light_bulb ++ str " Consider mentioning **technical skills** (e.g., Python, SQL, React).".

Definition no_email : ustr :=
  warning_sign ++ str " Email not found. Add your contact email.".

Definition no_phone : ustr :=
  warning_sign ++ str " Contact number not found. Include your phone number.".

Definition too_complex : ustr :=
  light_bulb ++ str " The language seems complex. Use simpler, more readable wording.".

Section Analyzer.

Context {U : Unicode}.

(** The name [flesch_reading_ease] as the module binds it: the function
    of [textstat], or the one defined above.  Either returns a float for
    every string. *)
Variable scorer : ustr -> Float.float.

Definition missing_section (section : ustr) : ustr :=
  warning_sign ++ str " Missing section: **" ++ capitalize section
    ++ str "**".

(** [r'\S+@\S+\.\S+'] *)
Definition email_re : Re.regex :=
  [Re.plus not_space; Re.one (one_of "@"); Re.plus not_space;
   Re.one (one_of "."); Re.plus not_space].

(** [r'\+?\d[\d\s-]{8,}\d'] *)
Definition phone_re : Re.regex :=
  [Re.opt (one_of "+"); Re.one is_digit;
   Re.at_least 8 (fun c => is_digit c || is_space c || one_of "-" c)%bool;
   Re.one is_digit].

(** The result is [None] when [int] raises, on an infinity or a nan; the
    properties below show that it never does. *)
Definition analyze_resume (text : ustr) : option analysis :=
  let suggestions : list ustr := [] in
  let lower_text := lower text in
  let suggestions :=
    fold_left
      (fun suggestions section =>
         if negb (contains lower_text section)
         then suggestions ++ [missing_section section]
         else suggestions)
      required_sections suggestions in
  let word_count := Z.of_nat (length (Re.findall word_re text)) in
  let suggestions :=
    if word_count <? 300 then suggestions ++ [too_short]
    else if word_count >? 900 then suggestions ++ [too_long]
    else suggestions in
  let suggestions :=
    if negb (existsb (contains lower_text) action_verbs)
    then suggestions ++ [no_action_verbs] else suggestions in
  let suggestions :=
    if negb (existsb (contains lower_text) tech_keywords)
    then suggestions ++ [no_tech_keywords] else suggestions in
  let suggestions :=
    if negb (Re.search email_re text)
    then suggestions ++ [no_email] else suggestions in
  let suggestions :=
    if negb (Re.search phone_re text)
    then suggestions ++ [no_phone] else suggestions in
  let readability_score := scorer text in
  let suggestions :=
    if Float.ltb readability_score (Float.of_Z 50)
    then suggestions ++ [too_complex] else suggestions in
  let passed := Zpos total_checks - Z.of_nat (length suggestions) in
  match
    Float.to_int
      (Float.mul (Float.ratio passed total_checks) (Float.of_Z 100))
  with
  | Some percent =>
      Some {| suggestions := suggestions;
              word_count := word_count;
              readability_score := readability_score;
              score := Z.max 0 percent |}
  | None => None
  end.

End Analyzer.

(** ** What a pattern means

    The language of a pattern, against which the matcher is checked. *)

Module ReSpec.

Import Re.

Definition within (hi : option nat) (n : nat) : Prop :=
  match hi with
  | Some h => (n <= h)%nat
  | None => True
  end.

(** The strings a pattern denotes: one block of code points of the class
    per item, as long as its quantifier allows. *)
Inductive matches : regex -> ustr -> Prop :=
| matches_nil : matches [] []
| matches_cons p lo hi r w1 w2 :
    forallb p w1 = true ->
    (lo <= length w1)%nat ->
    within hi (length w1) ->
    matches r w2 ->
    matches (Rep p lo hi :: r) (w1 ++ w2).

(** [s] has a substring in the language of [r]. *)
Definition occurs (r : regex) (s : ustr) : Prop :=
  exists pre w post, s = pre ++ w ++ post /\ matches r w.

(** The number of maximal runs of code points of the class; [inside]
    tells whether the code point before was of the class. *)
Fixpoint count_runs (p : char -> bool) (inside : bool) (s : ustr) : nat :=
  match s with
  | [] => O
  | c :: rest =>
      if p c then ((if inside then 0 else 1) + count_runs p true rest)%nat
      else count_runs p false rest
  end.

End ReSpec.

(** ** The specification's wording of the two computations

    The readability formula with its three counts taken directly on the
    text, and the analyzer's rules as a table of conditions and messages.
    The program is compared with them below. *)

Definition at_least_one (n : nat) : Z := Z.max 1 (Z.of_nat n).

(** The suggestions of a table of rules: the messages of the rules whose
    condition holds, in order. *)
Definition raised (table : list (bool * ustr)) : list ustr :=
  map snd (filter fst table).

(** How many of the suggestions [l] are among the messages [ms]. *)
Definition count_of (ms : list ustr) (l : list ustr) : nat :=
  length (filter (fun m => existsb (text_eqb m) ms) l).

(** [round(n / d)] of an exact quotient. *)
Definition python_round (n : Z) (d : positive) : Z := Float.round_half_even n d.

(** The integer part of the percentage of [n] suggestions out of seven
    checks, as the program computes it in binary64. *)
Definition percent (n : nat) : option Z :=
  Float.to_int
    (Float.mul (Float.ratio (Zpos total_checks - Z.of_nat n) total_checks)
       (Float.of_Z 100)).

Section Wording.

Context {U : Unicode}.

Variable scorer : ustr -> Float.float.

Definition spec_sentences (text : ustr) : Z :=
  at_least_one (length (filter (one_of ".!?") text)).

Definition spec_words (text : ustr) : Z :=
  at_least_one (length (Re.findall word_re text)).

Definition spec_syllables (text : ustr) : Z :=
  at_least_one
    (list_sum
       (map (fun token => length (filter (one_of "aeiouyAEIOUY") token))
          (split text))).

Definition spec_flesch (text : ustr) : Float.float :=
  Float.round1
    (Float.sub
       (Float.sub (Float.ratio 206835 1000)
          (Float.mul (Float.ratio 1015 1000)
             (Float.ratio (spec_words text) (Z.to_pos (spec_sentences text)))))
       (Float.mul (Float.ratio 846 10)
          (Float.ratio (spec_syllables text) (Z.to_pos (spec_words text))))).

(** The strings of the email pattern in words: code points that are not
    white space, an at sign, more of them, a full stop, more of them. *)
Definition email_shape (w : ustr) : Prop :=
  exists a b c,
    w = a ++ ch "@" :: b ++ ch "." :: c
    /\ a <> [] /\ b <> [] /\ c <> []
    /\ forallb not_space a = true
    /\ forallb not_space b = true
    /\ forallb not_space c = true.

(** The strings of the phone pattern in words: a plus sign or nothing, a
    digit, eight or more digits, white space or hyphens, a digit. *)
Definition phone_shape (w : ustr) : Prop :=
  exists sign d1 middle d2,
    w = sign ++ d1 :: middle ++ [d2]
    /\ (sign = [] \/ sign = [ch "+"])
    /\ is_digit d1 = true
    /\ (8 <= length middle)%nat
    /\ forallb (fun c => is_digit c || is_space c || char_eqb c (ch "-"))
         middle = true
    /\ is_digit d2 = true.

(** The number of [\w+] matches of a text. *)
Definition count_words (text : ustr) : Z :=
  Z.of_nat (length (Re.findall word_re text)).

(** The seven rules, the first with one line per section. *)
Definition rule_table (text : ustr) : list (bool * ustr) :=
  map (fun section =>
         (negb (contains (lower text) section), missing_section section))
    required_sections
  ++ [ (count_words text <? 300, too_short);
       (negb (count_words text <? 300) && (count_words text >? 900),
        too_long);
       (negb (existsb (contains (lower text)) action_verbs), no_action_verbs);
       (negb (existsb (contains (lower text)) tech_keywords),
        no_tech_keywords);
       (negb (Re.search email_re text), no_email);
       (negb (Re.search phone_re text), no_phone);
       (Float.ltb (scorer text) (Float.of_Z 50), too_complex) ].

End Wording.

(** ** Sample inputs *)

(** Tables of an interpreter that classifies nothing above 127; the
    samples are ASCII, and any tables give the same results on them. *)
Definition ascii_only : Unicode :=
  {| uni_isalnum := fun _ => false;
     uni_isspace := fun _ => false;
     uni_isdecimal := fun _ => false;
     uni_lower := fun _ c _ => [c];
     uni_title := fun c => [c] |}.

(** Three sections missing and fewer than 300 words: four suggestions. *)
Definition sample_four : ustr :=
  str "Skills: python. Led a team. Mail a@b.c. Call 1234567890.".

(** Every rule fails: ten suggestions. *)
Definition sample_ten : ustr := str "aaaaaaaaaa".

(** Every rule passes: 310 words in very short sentences. *)
Definition sample_none : ustr :=
  str "education experience projects skills developed python a@b.c 1234567890 "
    ++ concat (repeat (str "ok. ") 300).

(** ** The page script

    The part of the script that runs on an upload: what it extracts,
    which branch it takes and what it hands to the page library, as a tree
    of the widgets it draws in order.  The fixed header and style sheet
    that precede it do not depend on the upload and are left out. *)

(** [str(n)] of an int. *)
Definition decimal (n : Z) : ustr := str (NilEmpty.string_of_int (Z.to_int n)).

(** The argument of [st.metric]: an int or a string. *)
Inductive value :=
| IntValue (n : Z)
| StrValue (s : ustr).

#[local] Unset Elimination Schemes.

Inductive widget :=
| Spinner (label : ustr) (body : list widget)
| Error (body : ustr)
| Markdown (body : ustr) (unsafe_allow_html : bool)
| Subheader (body : ustr)
| Columns (columns : list (list widget))
| Metric (label : ustr) (v : value)
| Progress (v : Float.float)
| Expander (label : ustr) (body : list widget)
| Write (body : ustr)
| Info (body : ustr).

#[local] Set Elimination Schemes.

Definition hr : widget := Markdown (str "<hr>") true.

Definition could_not_extract : ustr :=
  [10060]%N ++ str " Could not extract text. Try another file.".

Definition suggestion_box (s : ustr) : widget :=
  Markdown (str "<div class='suggestion-box'>" ++ s ++ str "</div>") true.

Definition success_box : widget :=
  Markdown
    (str "<div class='success-box'>" ++ [127881]%N
       ++ str " Excellent! Your resume looks professional and well-structured!</div>")
    true.

Definition tip : widget :=
  Info ([129517]%N
          ++ str " Tip: Tailor your resume for each job by adding keywords from the job description for better ATS results.").

Section Page.

Context {U : Unicode}.

Variable scorer : ustr -> Float.float.
Variable pdf_pages : UploadedFile -> option (list (option ustr)).
Variable docx2txt_process : UploadedFile -> option ustr.

(** [f"{x}"] of a float, the interpreter's shortest decimal that reads
    back as [x]. *)
Variable format_float : Float.float -> ustr.

(** [s.lstrip()], [s.rstrip()] and [s.strip()]: white space removed at
    the start, at the end, at both. *)
Fixpoint lstrip (s : ustr) : ustr :=
  match s with
  | [] => []
  | c :: rest => if is_space c then lstrip rest else s
  end.

Definition rstrip (s : ustr) : ustr := rev (lstrip (rev s)).

Definition strip (s : ustr) : ustr := rstrip (lstrip s).

(** What is drawn for an analysis. *)
Definition report (resume_text : ustr) (r : analysis) : list widget :=
  [ hr;
    Subheader ([128202]%N ++ str " Resume Overview");
    Columns
      [ [Metric ([128221]%N ++ str " Word Count") (IntValue (word_count r))];
        [Metric ([128214]%N ++ str " Readability")
           (StrValue (format_float (readability_score r)))];
        [Metric ([11088]%N ++ str " Resume Score")
           (StrValue (decimal (score r) ++ str "%"))] ];
    Progress (Float.ratio (score r) 100);
    hr;
    Expander ([128220]%N ++ str " View Extracted Text") [Write resume_text];
    Subheader ([128161]%N ++ str " Suggestions for Improvement") ]
  ++ match suggestions r with
     | [] => [success_box]
     | _ => map suggestion_box (suggestions r)
     end
  ++ [hr; tip].

(** The script from [if uploaded_file:] on; [None] is no upload yet. *)
Definition page (uploaded_file : option UploadedFile) : io (list widget) :=
  match uploaded_file with
  | None => ret []
  | Some uploaded_file =>
      resume_text <- extract_text pdf_pages docx2txt_process uploaded_file ;;
      body <- match strip resume_text with
              | [] => ret [Error could_not_extract]
              | _ =>
                  match analyze_resume scorer resume_text with
                  | Some r => ret (report resume_text r)
                  | None => ([], None)
                  end
              end ;;
      ret [Spinner ([129504]%N ++ str " Analyzing your resume...") body]
  end.

End Page.

(** ** Further wording for the properties *)

(** [a] can be obtained from [b] by leaving elements out. *)
Inductive subseq {A : Type} : list A -> list A -> Prop :=
| subseq_nil : subseq [] []
| subseq_skip x a b : subseq a b -> subseq a (x :: b)
| subseq_take x a b : subseq a b -> subseq (x :: a) (x :: b).

(** Every message the analyzer can give, in the order of its checks. *)
Definition all_messages {U : Unicode} : list ustr :=
  map missing_section required_sections
    ++ [too_short; too_long; no_action_verbs; no_tech_keywords; no_email;
        no_phone; too_complex].

(** The vowels the fallback scorer counts. *)
Definition is_vowel (c : char) : bool := one_of "aeiouyAEIOUY" c.

(** The fallback formula on three counts. *)
Definition flesch_of_counts (sentences words syllables : Z) : Float.float :=
  Float.round1
    (Float.sub
       (Float.sub (Float.ratio 206835 1000)
          (Float.mul (Float.ratio 1015 1000)
             (Float.ratio words (Z.to_pos sentences))))
       (Float.mul (Float.ratio 846 10)
          (Float.ratio syllables (Z.to_pos words)))).

(** * Properties *)

(** ** Comparison of floats *)

Module FloatFacts.

Lemma compare_antisym a b c :
  SFcompare a b = Some c -> SFcompare b a = Some (CompOpp c).
Proof.
  destruct a as [sa|sa| |sa ma ea], b as [sb|sb| |sb mb eb]; simpl;
    try discriminate;
    try (destruct sa; intros [= <-]; reflexivity);
    try (destruct sb; intros [= <-]; reflexivity);
    try (destruct sa, sb; intros [= <-]; reflexivity).
  destruct sa, sb; intros [= <-]; try reflexivity;
    rewrite (Z.compare_antisym ea eb);
    destruct (ea ?= eb); simpl; try reflexivity;
    rewrite (Pos.compare_cont_antisym ma mb Eq); simpl;
    now rewrite ?CompOpp_involutive.
Qed.

(** [a <= b] excludes [b < a]. *)
Lemma leb_not_ltb a b : Float.leb a b = true -> Float.ltb b a = false.
Proof.
  unfold Float.leb, Float.ltb, SFleb, SFltb.
  destruct (SFcompare a b) as [c|] eqn:E; [|discriminate].
  rewrite (compare_antisym _ _ E).
  destruct c; simpl; congruence.
Qed.

End FloatFacts.

(** ** The matcher and the language of a pattern *)

Module ReFacts.

Import Re ReSpec.

Lemma run_le_length p hi s : (run p hi s <= length s)%nat.
Proof.
  revert hi; induction s as [|c s IH]; intros hi; simpl; [lia|].
  destruct (p c); [|lia].
  destruct hi as [[|b]|]; [lia| |]; specialize (IH (Some b)) || specialize (IH None); lia.
Qed.

Lemma run_within p hi s : within hi (run p hi s).
Proof.
  revert hi; induction s as [|c s IH]; intros hi; simpl.
  - destruct hi; simpl; [lia|exact I].
  - destruct (p c).
    + destruct hi as [[|b]|]; simpl; [lia| |exact I].
      specialize (IH (Some b)); simpl in IH; lia.
    + destruct hi; simpl; [lia|exact I].
Qed.

Lemma run_prefix p hi s j :
  (j <= run p hi s)%nat -> forallb p (firstn j s) = true.
Proof.
  revert hi j; induction s as [|c s IH]; intros hi j Hj.
  - now rewrite firstn_nil.
  - destruct j as [|j]; [reflexivity|].
    simpl in Hj |- *. destruct (p c) eqn:Hc; [|lia].
    simpl. destruct hi as [[|b]|]; [lia| |].
    + apply (IH (Some b)); lia.
    + apply (IH None); lia.
Qed.

(** The class takes at least every block that the quantifier allows. *)
Lemma run_maximal p hi w t :
  forallb p w = true -> within hi (length w) ->
  (length w <= run p hi (w ++ t))%nat.
Proof.
  revert hi; induction w as [|c w IH]; intros hi Hall Hin; simpl; [lia|].
  simpl in Hall. apply andb_true_iff in Hall as [Hc Hw]. rewrite Hc.
  destruct hi as [[|b]|]; simpl in Hin; [lia| |].
  - specialize (IH (Some b) Hw); simpl in IH.
    assert (length w <= b)%nat by lia. specialize (IH H). lia.
  - specialize (IH None Hw I). lia.
Qed.

Lemma backtrack_sound k s lo d n :
  backtrack k s lo d = Some n ->
  exists j m, (lo <= j <= lo + d)%nat /\ k (skipn j s) = Some m
              /\ n = (j + m)%nat.
Proof.
  induction d as [|d IH]; simpl.
  - destruct (k (skipn (lo + 0) s)) as [m|] eqn:Hk; [|discriminate].
    intros [= <-]. exists (lo + 0)%nat, m. repeat split; auto; lia.
  - destruct (k (skipn (lo + S d) s)) as [m|] eqn:Hk.
    + intros [= <-]. exists (lo + S d)%nat, m. repeat split; auto; lia.
    + intros H. destruct (IH H) as (j & m & Hj & Hm & ->).
      exists j, m. repeat split; auto; lia.
Qed.

Lemma backtrack_complete k s lo d j m :
  (lo <= j <= lo + d)%nat -> k (skipn j s) = Some m ->
  exists n, backtrack k s lo d = Some n.
Proof.
  induction d as [|d IH]; intros Hj Hk; simpl.
  - replace (lo + 0)%nat with j by lia. rewrite Hk. eauto.
  - destruct (k (skipn (lo + S d) s)) as [m'|] eqn:Hk'; [eauto|].
    apply IH; auto.
    destruct (Nat.eq_dec j (lo + S d)) as [->|]; [congruence|lia].
Qed.

Lemma firstn_plus (s : ustr) j m :
  firstn (j + m) s = firstn j s ++ firstn m (skipn j s).
Proof.
  revert s; induction j as [|j IH]; intros s; [reflexivity|].
  destruct s as [|c s]; simpl.
  - now rewrite firstn_nil.
  - now rewrite IH.
Qed.

(** What the matcher finds is in the language of the pattern. *)
Lemma match_here_sound r :
  forall s n, match_here r s = Some n ->
              (n <= length s)%nat /\ matches r (firstn n s).
Proof.
  induction r as [|[p lo hi] r IH]; intros s n; simpl.
  - intros [= <-]. split; [lia|]. apply matches_nil.
  - destruct (run p hi s <? lo)%nat eqn:Hlo; [discriminate|].
    apply Nat.ltb_ge in Hlo. intros Hb.
    apply backtrack_sound in Hb as (j & m & Hj & Hm & ->).
    apply IH in Hm as [Hlen Hm].
    pose proof (run_le_length p hi s) as Hrun.
    pose proof (run_within p hi s) as Hin.
    rewrite length_skipn in Hlen.
    assert (Hfj : length (firstn j s) = j)
      by (rewrite length_firstn; lia).
    split; [lia|]. rewrite firstn_plus.
    apply matches_cons; auto.
    + apply run_prefix with (hi := hi). lia.
    + lia.
    + rewrite Hfj. destruct hi; simpl in *; [lia|exact I].
Qed.

Lemma skipn_length_app (w t : ustr) : skipn (length w) (w ++ t) = t.
Proof. induction w; simpl; auto. Qed.

(** Whatever string of the language starts [s], the matcher finds a
    match there. *)
Lemma match_here_complete r w :
  matches r w -> forall t, exists n, match_here r (w ++ t) = Some n.
Proof.
  induction 1 as [|p lo hi r w1 w2 Hall Hlo Hhi _ IH]; intros t; simpl.
  - eauto.
  - rewrite <- app_assoc.
    pose proof (run_maximal p hi w1 (w2 ++ t) Hall Hhi) as Hmax.
    destruct (run p hi (w1 ++ w2 ++ t) <? lo)%nat eqn:E.
    + apply Nat.ltb_lt in E. lia.
    + destruct (IH t) as [m Hm].
      apply backtrack_complete with (j := length w1) (m := m).
      * lia.
      * now rewrite skipn_length_app.
Qed.

(** [re.search] succeeds exactly on the strings with a substring in the
    language of the pattern. *)
Lemma search_occurs r s : search r s = true <-> occurs r s.
Proof.
  split.
  - induction s as [|c s IH]; simpl.
    + destruct (match_here r []) as [n|] eqn:E; [|discriminate].
      intros _. apply match_here_sound in E as [Hn Hm].
      exists [], (firstn n []), []. split; auto.
      now rewrite firstn_nil.
    + destruct (match_here r (c :: s)) as [n|] eqn:E.
      * intros _. apply match_here_sound in E as [Hn Hm].
        exists [], (firstn n (c :: s)), (skipn n (c :: s)).
        split; auto. simpl. now rewrite firstn_skipn.
      * intros H. destruct (IH H) as (pre & w & post & -> & Hm).
        exists (c :: pre), w, post. split; auto.
  - intros (pre & w & post & -> & Hm).
    induction pre as [|c pre IH].
    + simpl. destruct (match_here_complete Hm post) as [n Hn].
      destruct (w ++ post); simpl; now rewrite Hn.
    + simpl. destruct (match_here r (c :: pre ++ w ++ post)); auto.
Qed.

Lemma search_false_iff r s : search r s = false <-> ~ occurs r s.
Proof.
  rewrite <- search_occurs. destruct (search r s); split; congruence.
Qed.

(** *** [findall] on the two shapes of pattern the program counts with *)

Lemma run_zero p s : run p (Some O) s = O.
Proof. destruct s as [|c s]; simpl; [|destruct (p c)]; reflexivity. Qed.

Lemma match_here_one p c s :
  match_here [one p] (c :: s) = if p c then Some 1%nat else None.
Proof.
  simpl. destruct (p c); [|reflexivity]. now rewrite run_zero.
Qed.

Lemma match_here_one_nil p : match_here [one p] [] = None.
Proof. reflexivity. Qed.

(** A single class matches once per code point of the class. *)
Lemma findall_one_length p s :
  length (findall [one p] s) = length (filter p s).
Proof.
  unfold findall. induction s as [|c s IH].
  - reflexivity.
  - cbn [findall_from]. rewrite match_here_one. simpl filter.
    destruct (p c); simpl; now rewrite IH.
Qed.

Lemma match_here_plus p s :
  match_here [plus p] s =
    match run p None s with
    | O => None
    | S n => Some (S n)
    end.
Proof.
  cbn [match_here plus]. destruct (run p None s) as [|n] eqn:E.
  - reflexivity.
  - cbn [Nat.ltb Nat.leb Nat.sub].
    assert (H : forall d, backtrack (fun _ => Some O) s 1 d
                          = Some (1 + d + 0)%nat)
      by (intros d; destruct d; reflexivity).
    rewrite H. f_equal. lia.
Qed.

Lemma findall_plus_runs p s :
  length (findall_from [plus p] O s) = count_runs p false s
  /\ length (findall_from [plus p] (run p None s) s) = count_runs p true s.
Proof.
  induction s as [|c s [IH0 IH1]].
  - split; reflexivity.
  - assert (H0 : length (findall_from [plus p] O (c :: s))
                 = count_runs p false (c :: s)).
    { cbn [findall_from]. rewrite match_here_plus. simpl.
      destruct (p c); simpl; congruence. }
    split; [exact H0|].
    simpl run. destruct (p c) eqn:Hc.
    + cbn [findall_from count_runs]. rewrite Hc. exact IH1.
    + rewrite H0. simpl. now rewrite Hc.
Qed.

(** A class under [+] matches once per maximal run of the class. *)
Lemma findall_plus_length p s :
  length (findall [plus p] s) = count_runs p false s.
Proof. apply findall_plus_runs. Qed.

(** *** The language, item by item *)

Lemma matches_nil_iff w : matches [] w <-> w = [].
Proof.
  split; [inversion 1; reflexivity|intros ->; constructor].
Qed.

Lemma matches_cons_iff p lo hi r w :
  matches (Rep p lo hi :: r) w
  <-> exists w1 w2,
        w = w1 ++ w2 /\ forallb p w1 = true /\ (lo <= length w1)%nat
        /\ within hi (length w1) /\ matches r w2.
Proof.
  split.
  - inversion 1; subst. eauto 10.
  - intros (w1 & w2 & -> & ? & ? & ? & ?). now constructor.
Qed.

(** One code point of a class. *)
Lemma matches_one_iff p r w :
  matches (one p :: r) w
  <-> exists c w2, w = c :: w2 /\ p c = true /\ matches r w2.
Proof.
  unfold one. rewrite matches_cons_iff. split.
  - intros (w1 & w2 & -> & Hp & Hlo & Hhi & Hr). simpl in Hhi.
    destruct w1 as [|c [|? ?]]; simpl in *; try lia.
    rewrite andb_true_r in Hp. eauto.
  - intros (c & w2 & -> & Hp & Hr). exists [c], w2. simpl.
    rewrite Hp. repeat split; auto.
Qed.

(** One or more code points of a class. *)
Lemma matches_plus_iff p r w :
  matches (plus p :: r) w
  <-> exists w1 w2,
        w = w1 ++ w2 /\ w1 <> [] /\ forallb p w1 = true /\ matches r w2.
Proof.
  unfold plus. rewrite matches_cons_iff. split.
  - intros (w1 & w2 & -> & Hp & Hlo & _ & Hr). exists w1, w2.
    repeat split; auto. intros ->. simpl in Hlo. lia.
  - intros (w1 & w2 & -> & Hne & Hp & Hr). exists w1, w2.
    repeat split; auto. destruct w1; [congruence|simpl; lia].
Qed.

(** At most one code point of a class. *)
Lemma matches_opt_iff p r w :
  matches (opt p :: r) w
  <-> matches r w \/ exists c w2, w = c :: w2 /\ p c = true /\ matches r w2.
Proof.
  unfold opt. rewrite matches_cons_iff. split.
  - intros (w1 & w2 & -> & Hp & _ & Hhi & Hr). simpl in Hhi.
    destruct w1 as [|c [|? ?]]; simpl in *; try lia; [now left|].
    rewrite andb_true_r in Hp. right. eauto.
  - intros [Hr|(c & w2 & -> & Hp & Hr)].
    + exists [], w. simpl. repeat split; auto.
    + exists [c], w2. simpl. rewrite Hp. repeat split; auto.
Qed.

(** [n] or more code points of a class. *)
Lemma matches_at_least_iff n p r w :
  matches (at_least n p :: r) w
  <-> exists w1 w2,
        w = w1 ++ w2 /\ (n <= length w1)%nat /\ forallb p w1 = true
        /\ matches r w2.
Proof.
  unfold at_least. rewrite matches_cons_iff. split.
  - intros (w1 & w2 & -> & Hp & Hlo & _ & Hr). eauto 10.
  - intros (w1 & w2 & -> & Hlo & Hp & Hr). exists w1, w2.
    repeat split; auto.
Qed.

End ReFacts.

(** ** Substrings and case *)

Lemma char_eqb_eq a b : char_eqb a b = true <-> a = b.
Proof. apply N.eqb_eq. Qed.

Lemma startswith_iff p s : startswith p s = true <-> exists t, s = p ++ t.
Proof.
  revert s; induction p as [|x p IH]; intros s; simpl.
  - split; eauto.
  - destruct s as [|y s].
    + split; [discriminate|intros [t Ht]; discriminate].
    + rewrite andb_true_iff, char_eqb_eq, IH. split.
      * intros [-> [t ->]]. eauto.
      * intros [t [= -> ->]]. eauto.
Qed.

(** [p in s] holds exactly when [p] is a contiguous part of [s]. *)
Lemma contains_iff s p :
  contains s p = true <-> exists pre post, s = pre ++ p ++ post.
Proof.
  induction s as [|c s IH]; simpl.
  - rewrite orb_false_r, startswith_iff. split.
    + intros [t Ht]. exists [], t. exact Ht.
    + intros (pre & post & H). destruct pre; [|discriminate].
      simpl in H. eauto.
  - rewrite orb_true_iff, startswith_iff, IH. split.
    + intros [[t Ht]|(pre & post & ->)].
      * exists [], t. exact Ht.
      * exists (c :: pre), post. reflexivity.
    + intros (pre & post & H). destruct pre as [|x pre].
      * left. simpl in H. eauto.
      * right. injection H as -> ->. eauto.
Qed.

Section Case.

Context {U : Unicode}.

Lemma lower_from_app before a b :
  exists before', lower_from before (a ++ b)
                  = lower_from_prefix before a b ++ lower_from before' b.
Proof.
  revert before; induction a as [|c a IH]; intros before; simpl.
  - exists before. reflexivity.
  - destruct (IH (c :: before)) as [before' ->].
    exists before'. now rewrite app_assoc.
Qed.

Lemma lower_from_ascii before w rest :
  forallb is_ascii w = true ->
  lower_from_prefix before w rest = map ascii_lower w.
Proof.
  revert before; induction w as [|c w IH]; intros before H; simpl.
  - reflexivity.
  - simpl in H. apply andb_true_iff in H as [Hc Hw].
    rewrite Hc. simpl. now rewrite IH.
Qed.

(** A section name written in the text in any mix of ASCII cases is found
    in the lowered text. *)
Lemma contains_any_case text pre w post :
  text = pre ++ w ++ post ->
  forallb is_ascii w = true ->
  contains (lower text) (map ascii_lower w) = true.
Proof.
  intros -> Hw. unfold lower. apply contains_iff.
  destruct (lower_from_app [] pre (w ++ post)) as [b1 ->].
  destruct (lower_from_app b1 w post) as [b2 ->].
  rewrite (lower_from_ascii _ _ _ Hw). eauto.
Qed.

End Case.

(** ** Equality of strings *)

Lemma text_eqb_eq a b : text_eqb a b = true <-> a = b.
Proof.
  revert b; induction a as [|x a IH]; intros [|y b]; simpl;
    try (split; [discriminate|discriminate]); [tauto|].
  unfold char_eqb. rewrite andb_true_iff, N.eqb_eq, IH.
  split; [intros [-> ->]; reflexivity|intros [= -> ->]; auto].
Qed.

Lemma text_neq a b : text_eqb a b = false -> a <> b.
Proof.
  intros H E. apply text_eqb_eq in E. congruence.
Qed.

(** Two messages that differ, by computation. *)
Ltac distinct H :=
  exfalso; revert H; apply text_neq; vm_compute; reflexivity.

(** ** The analyzer as a table of rules *)

Section AnalyzerFacts.

Context {U : Unicode}.

Variable scorer : ustr -> Float.float.

Lemma raised_app t1 t2 : raised (t1 ++ t2) = raised t1 ++ raised t2.
Proof. unfold raised. now rewrite filter_app, map_app. Qed.

Lemma append_if (b : bool) (l : list ustr) m :
  (if b then l ++ [m] else l) = l ++ raised [(b, m)].
Proof. destruct b; simpl; [reflexivity|now rewrite app_nil_r]. Qed.

Lemma append_if_elif (b1 b2 : bool) (l : list ustr) m1 m2 :
  (if b1 then l ++ [m1] else if b2 then l ++ [m2] else l)
  = l ++ raised [(b1, m1); (negb b1 && b2, m2)].
Proof.
  destruct b1, b2; simpl; try reflexivity; now rewrite app_nil_r.
Qed.

Lemma analyze_resume_table text :
  analyze_resume scorer text =
    match percent (length (raised (rule_table scorer text))) with
    | Some q =>
        Some {| suggestions := raised (rule_table scorer text);
                word_count := count_words text;
                readability_score := scorer text;
                score := Z.max 0 q |}
    | None => None
    end.
Proof.
  unfold analyze_resume, rule_table, percent, count_words, required_sections.
  cbv zeta. cbn [fold_left map].
  rewrite append_if_elif, !append_if.
  cbn [app]. rewrite <- !app_assoc, <- !raised_app. cbn [app].
  reflexivity.
Qed.

Lemma raised_In (table : list (bool * ustr)) m :
  In m (raised table) <-> In (true, m) table.
Proof.
  unfold raised. rewrite in_map_iff. split.
  - intros ([b m'] & Hm & Hin). simpl in Hm. subst m'.
    apply filter_In in Hin as [Hin Hb]. simpl in Hb. now subst b.
  - intros Hin. exists (true, m). split; [reflexivity|].
    apply filter_In. now split.
Qed.

Lemma raised_length_le (table : list (bool * ustr)) :
  (length (raised table) <= length table)%nat.
Proof.
  unfold raised. rewrite length_map. apply filter_length_le.
Qed.

(** At most ten suggestions: the two messages of the length rule exclude
    each other. *)
Lemma suggestions_at_most_ten text :
  (length (raised (rule_table scorer text)) <= 10)%nat.
Proof.
  unfold rule_table. rewrite raised_app, length_app.
  pose proof (raised_length_le
    (map (fun section =>
            (negb (contains (lower text) section), missing_section section))
       required_sections)) as H4.
  rewrite length_map in H4. change (length required_sections) with 4%nat in H4.
  match goal with
  | |- context [raised (?a :: ?b :: ?rest)] =>
      change (raised (a :: b :: rest)) with (raised ([a; b] ++ rest));
      rewrite (raised_app [a; b] rest), length_app;
      pose proof (raised_length_le rest) as H5;
      assert (H1 : (length (raised [a; b]) <= 1)%nat)
        by (unfold raised; simpl;
            destruct (count_words text <? 300),
                     (count_words text >? 900); simpl; lia)
  end.
  cbn [length] in H5. lia.
Qed.

(** Which rule raises which message: the messages of the table are
    distinct, so each is raised by its own rule only. *)
Ltac rule_of_message :=
  rewrite raised_In; unfold rule_table, required_sections;
  cbn [map app In];
  split;
  [ intros H; repeat (destruct H as [H|H]); try contradiction;
    let Hb := fresh "Hb" in
    let Hm := fresh "Hm" in
    pose proof (f_equal fst H) as Hb; pose proof (f_equal snd H) as Hm;
    cbn [fst snd] in Hb, Hm; first [distinct Hm | exact Hb]
  | intros H; rewrite H; auto 12 ].

Lemma too_short_raised text :
  In too_short (raised (rule_table scorer text))
  <-> (count_words text <? 300) = true.
Proof. rule_of_message. Qed.

Lemma too_long_raised text :
  In too_long (raised (rule_table scorer text))
  <-> (negb (count_words text <? 300) && (count_words text >? 900))%bool
      = true.
Proof. rule_of_message. Qed.

Lemma no_email_raised text :
  In no_email (raised (rule_table scorer text))
  <-> negb (Re.search email_re text) = true.
Proof. rule_of_message. Qed.

Lemma no_phone_raised text :
  In no_phone (raised (rule_table scorer text))
  <-> negb (Re.search phone_re text) = true.
Proof. rule_of_message. Qed.

Lemma too_complex_raised text :
  In too_complex (raised (rule_table scorer text))
  <-> Float.ltb (scorer text) (Float.of_Z 50) = true.
Proof. rule_of_message. Qed.

Lemma count_of_app ms l1 l2 :
  count_of ms (l1 ++ l2) = (count_of ms l1 + count_of ms l2)%nat.
Proof. unfold count_of. now rewrite filter_app, length_app. Qed.

(** Rules with other messages raise none of [ms]. *)
Lemma count_of_others ms (table : list (bool * ustr)) :
  forallb (fun m => negb (existsb (text_eqb m) ms)) (map snd table) = true ->
  count_of ms (raised table) = O.
Proof.
  unfold count_of, raised. induction table as [|[b m] table IH]; simpl.
  - reflexivity.
  - intros H. apply andb_true_iff in H as [Hm H].
    destruct b; simpl; auto.
    apply negb_true_iff in Hm. rewrite Hm. auto.
Qed.

(** The length rule raises one of its two messages, or none. *)
Lemma length_rule_count text :
  count_of [too_short; too_long] (raised (rule_table scorer text))
  = if count_words text <? 300 then 1%nat
    else if count_words text >? 900 then 1%nat else 0%nat.
Proof.
  unfold rule_table.
  match goal with
  | |- context [?sections ++ ?a :: ?b :: ?rest] =>
      change (sections ++ a :: b :: rest)
        with (sections ++ [a; b] ++ rest);
      rewrite !raised_app, !count_of_app;
      rewrite (count_of_others _ sections), (count_of_others _ rest)
  end.
  - destruct (count_words text <? 300), (count_words text >? 900);
      vm_compute; reflexivity.
  - vm_compute; reflexivity.
  - vm_compute; reflexivity.
Qed.

End AnalyzerFacts.

(** ** The score *)

(** On the program's range of suggestion counts the binary64 computation
    gives the integer quotient, truncated toward zero. *)
Lemma percent_quot n :
  (n <= 10)%nat ->
  percent n = Some (Z.quot (100 * (7 - Z.of_nat n)) 7).
Proof.
  intros Hn.
  do 11 (destruct n as [|n]; [vm_compute; reflexivity|]).
  lia.
Qed.

(** The eight values of the score, by number of suggestions. *)
Lemma score_by_count n :
  (n <= 10)%nat ->
  let s := Z.max 0 (Z.quot (100 * (7 - Z.of_nat n)) 7) in
  (s = 100 <-> n = O)
  /\ (n <> O -> s <= 85)
  /\ In s [0; 14; 28; 42; 57; 71; 85; 100]
  /\ ((7 <= n)%nat -> s = 0).
Proof.
  intros Hn.
  do 11 (destruct n as [|n];
         [vm_compute; repeat split; intros;
          try discriminate; try congruence; try lia; auto 10|]).
  lia.
Qed.

(** ** The counts of the readability formula *)

Lemma or_1_at_least_one n : Zpos (or_1 n) = at_least_one n.
Proof.
  unfold at_least_one. destruct n as [|k]; [reflexivity|].
  unfold or_1. rewrite Zpos_P_of_succ_nat, Nat2Z.inj_succ. lia.
Qed.

Lemma at_least_one_to_pos n : Z.to_pos (at_least_one n) = or_1 n.
Proof. now rewrite <- or_1_at_least_one. Qed.

Lemma sum_from l acc : fold_left Nat.add l acc = (acc + list_sum l)%nat.
Proof.
  revert acc; induction l as [|x l IH]; intros acc; simpl; [lia|].
  rewrite IH. lia.
Qed.

Lemma sum_list_sum l : sum l = list_sum l.
Proof. unfold sum. now rewrite sum_from. Qed.

Section Claims.

Context {U : Unicode}.

Variable scorer : ustr -> Float.float.

(** The analyzer never raises: it returns the suggestions of the rule
    table, the word count, the readability and the truncated percentage. *)
Lemma analyze_resume_returns text :
  analyze_resume scorer text =
    Some {| suggestions := raised (rule_table scorer text);
            word_count := count_words text;
            readability_score := scorer text;
            score :=
              Z.max 0
                (Z.quot
                   (100 * (7 - Z.of_nat
                                 (length (raised (rule_table scorer text)))))
                   7) |}.
Proof.
  rewrite analyze_resume_table, percent_quot; [reflexivity|].
  apply suggestions_at_most_ten.
Qed.

(** C1, as amended: for every text the analyzer returns, with
    [passed = 7 - len(suggestions)], the score
    [max(0, 100 * passed / 7 truncated toward zero)], an integer of
    [0..100].  (The quotient is truncated by [int], not rounded.) *)
Theorem analyze_resume_score_truncated text :
  exists r,
    analyze_resume scorer text = Some r
    /\ (let passed := 7 - Z.of_nat (length (suggestions r)) in
        score r = Z.max 0 (Z.quot (100 * passed) 7))
    /\ 0 <= score r <= 100.
Proof.
  eexists. split; [apply analyze_resume_returns|].
  cbn [suggestions score]. split; [reflexivity|].
  pose proof (suggestions_at_most_ten scorer text) as H.
  set (n := length (raised (rule_table scorer text))) in *.
  split; [lia|].
  apply Z.max_lub; [lia|].
  transitivity (Z.quot 700 7); [|vm_compute; discriminate].
  apply Z.quot_le_mono; lia.
Qed.

(** C9: the score is 100 exactly when there is no suggestion; with a
    suggestion it is at most 85; and it is always one of 0, 14, 28, 42,
    57, 71, 85 and 100. *)
Theorem analyze_resume_score_values text :
  exists r,
    analyze_resume scorer text = Some r
    /\ (score r = 100 <-> suggestions r = [])
    /\ (suggestions r <> [] -> score r <= 85)
    /\ In (score r) [0; 14; 28; 42; 57; 71; 85; 100].
Proof.
  eexists. split; [apply analyze_resume_returns|].
  cbn [suggestions score].
  destruct (score_by_count (suggestions_at_most_ten scorer text))
    as (H100 & H85 & Hin & _).
  rewrite <- length_zero_iff_nil. auto.
Qed.

(** C2: a text that has none of the four sections, fewer than 300 words,
    no action verb, no technical keyword, no email, no phone number and a
    readability below 50 gets exactly ten suggestions and the score 0,
    with [passed = 7 - 10] negative. *)
Theorem analyze_resume_all_fail text :
  existsb (contains (lower text)) required_sections = false ->
  count_words text < 300 ->
  existsb (contains (lower text)) action_verbs = false ->
  existsb (contains (lower text)) tech_keywords = false ->
  Re.search email_re text = false ->
  Re.search phone_re text = false ->
  Float.ltb (scorer text) (Float.of_Z 50) = true ->
  exists r,
    analyze_resume scorer text = Some r
    /\ length (suggestions r) = 10%nat
    /\ 7 - Z.of_nat (length (suggestions r)) < 0
    /\ score r = 0.
Proof.
  intros Hsec Hwc Hverb Htech Hmail Hphone Hread.
  assert (Hlen : length (raised (rule_table scorer text)) = 10%nat).
  { unfold rule_table. rewrite Hverb, Htech, Hmail, Hphone, Hread.
    apply Z.ltb_lt in Hwc. rewrite Hwc.
    unfold required_sections in *. cbn [existsb] in Hsec. cbn [map].
    repeat (apply orb_false_iff in Hsec as [-> Hsec]).
    reflexivity. }
  eexists. split; [apply analyze_resume_returns|].
  cbn [suggestions score]. rewrite Hlen. repeat split.
Qed.

(** C3: a text that contains the four section names, has from 300 to 900
    words, contains one of the eight action verbs and one of the eleven
    technical keywords, matches the email and the phone patterns and has a
    readability of 50 or more gets no suggestion and the score 100. *)
Theorem analyze_resume_all_pass text :
  forallb (contains (lower text)) required_sections = true ->
  300 <= count_words text <= 900 ->
  existsb (contains (lower text)) action_verbs = true ->
  existsb (contains (lower text)) tech_keywords = true ->
  Re.search email_re text = true ->
  Re.search phone_re text = true ->
  Float.leb (Float.of_Z 50) (scorer text) = true ->
  length required_sections = 4%nat
  /\ length action_verbs = 8%nat
  /\ length tech_keywords = 11%nat
  /\ exists r,
       analyze_resume scorer text = Some r
       /\ suggestions r = []
       /\ score r = 100.
Proof.
  intros Hsec [Hlo Hhi] Hverb Htech Hmail Hphone Hread.
  repeat (split; [reflexivity|]).
  assert (Hnil : raised (rule_table scorer text) = []).
  { unfold rule_table. rewrite Hverb, Htech, Hmail, Hphone.
    rewrite (FloatFacts.leb_not_ltb _ _ Hread).
    assert (H1 : (count_words text <? 300) = false) by (apply Z.ltb_ge; lia).
    assert (H2 : (count_words text >? 900) = false)
      by (rewrite Z.gtb_ltb; apply Z.ltb_ge; lia).
    rewrite H1, H2.
    unfold required_sections in *. cbn [forallb] in Hsec. cbn [map].
    repeat (apply andb_true_iff in Hsec as [-> Hsec]).
    reflexivity. }
  eexists. split; [apply analyze_resume_returns|].
  cbn [suggestions score]. rewrite Hnil. split; reflexivity.
Qed.

(** C4: the fallback scorer returns
    [206.835 - 1.015 * (words / sentences) - 84.6 * (syllables / words)]
    rounded to one decimal, where [sentences] is the number of code points
    among [.], [!] and [?], [words] the number of [\w+] matches and
    [syllables] the sum over the tokens of [split] of their number of
    vowels, each count raised to 1 when it is 0. *)
Theorem flesch_reading_ease_formula text :
  flesch_reading_ease text = spec_flesch text
  /\ 1 <= spec_sentences text
  /\ 1 <= spec_words text
  /\ 1 <= spec_syllables text.
Proof.
  split; [|unfold spec_sentences, spec_words, spec_syllables, at_least_one;
           lia].
  unfold flesch_reading_ease, spec_flesch, spec_sentences, spec_words,
    spec_syllables, sentence_re, vowel_re.
  rewrite !at_least_one_to_pos, !or_1_at_least_one, sum_list_sum.
  rewrite ReFacts.findall_one_length.
  do 6 f_equal.
  apply map_ext. intros token. apply ReFacts.findall_one_length.
Qed.

(** *** The two contact patterns *)

Lemma one_of_single (a : ascii) c :
  one_of (String a EmptyString) c = true <-> c = ch a.
Proof.
  unfold one_of, str, ch. simpl. rewrite orb_false_r. apply N.eqb_eq.
Qed.

Import ReSpec.

Lemma email_re_shape w : matches email_re w <-> email_shape w.
Proof.
  unfold email_re, email_shape. split.
  - intros H.
    apply ReFacts.matches_plus_iff in H as (a & w1 & -> & Ha & Hpa & H).
    apply ReFacts.matches_one_iff in H as (c1 & w2 & -> & Hc1 & H).
    apply ReFacts.matches_plus_iff in H as (b & w3 & -> & Hb & Hpb & H).
    apply ReFacts.matches_one_iff in H as (c2 & w4 & -> & Hc2 & H).
    apply ReFacts.matches_plus_iff in H as (c & w5 & -> & Hc & Hpc & H).
    apply ReFacts.matches_nil_iff in H as ->.
    apply one_of_single in Hc1 as ->. apply one_of_single in Hc2 as ->.
    exists a, b, c. rewrite app_nil_r. repeat split; auto.
  - intros (a & b & c & -> & Ha & Hb & Hc & Hpa & Hpb & Hpc).
    apply ReFacts.matches_plus_iff. exists a, (ch "@" :: b ++ ch "." :: c).
    repeat split; auto.
    apply ReFacts.matches_one_iff. exists (ch "@"), (b ++ ch "." :: c).
    repeat split; auto.
    apply ReFacts.matches_plus_iff. exists b, (ch "." :: c).
    repeat split; auto.
    apply ReFacts.matches_one_iff. exists (ch "."), c.
    repeat split; auto.
    apply ReFacts.matches_plus_iff. exists c, [].
    rewrite app_nil_r. repeat split; auto. constructor.
Qed.

Lemma forallb_same (p q : char -> bool) l :
  (forall c, p c = q c) -> forallb p l = forallb q l.
Proof.
  intros H. induction l as [|c l IH]; simpl; [reflexivity|].
  now rewrite H, IH.
Qed.

Lemma phone_class c :
  (is_digit c || is_space c || one_of "-" c)%bool
  = (is_digit c || is_space c || char_eqb c (ch "-"))%bool.
Proof.
  unfold one_of, str, ch. simpl. now rewrite orb_false_r.
Qed.

Lemma phone_re_shape w : matches phone_re w <-> phone_shape w.
Proof.
  unfold phone_re, phone_shape. split.
  - intros H.
    assert (Htail : forall v,
      matches [Re.one is_digit;
               Re.at_least 8
                 (fun c => (is_digit c || is_space c || one_of "-" c)%bool);
               Re.one is_digit] v ->
      exists d1 middle d2,
        v = d1 :: middle ++ [d2] /\ is_digit d1 = true
        /\ (8 <= length middle)%nat
        /\ forallb
             (fun c => (is_digit c || is_space c || char_eqb c (ch "-"))%bool)
             middle = true
        /\ is_digit d2 = true).
    { intros v Hv.
      apply ReFacts.matches_one_iff in Hv as (d1 & v1 & -> & Hd1 & Hv).
      apply ReFacts.matches_at_least_iff in Hv
        as (middle & v2 & -> & Hlen & Hmid & Hv).
      apply ReFacts.matches_one_iff in Hv as (d2 & v3 & -> & Hd2 & Hv).
      apply ReFacts.matches_nil_iff in Hv as ->.
      exists d1, middle, d2. repeat split; auto.
      erewrite forallb_same; [exact Hmid|].
      intros c. symmetry. apply phone_class. }
    apply ReFacts.matches_opt_iff in H as [H|(c & v & -> & Hc & H)].
    + destruct (Htail _ H) as (d1 & middle & d2 & -> & ?).
      exists [], d1, middle, d2. simpl. tauto.
    + destruct (Htail _ H) as (d1 & middle & d2 & -> & ?).
      apply one_of_single in Hc as ->.
      exists [ch "+"], d1, middle, d2. simpl. tauto.
  - intros (sign & d1 & middle & d2 & -> & Hsign & Hd1 & Hlen & Hmid & Hd2).
    assert (Htail :
      matches [Re.one is_digit;
               Re.at_least 8
                 (fun c => (is_digit c || is_space c || one_of "-" c)%bool);
               Re.one is_digit] (d1 :: middle ++ [d2])).
    { apply ReFacts.matches_one_iff. exists d1, (middle ++ [d2]).
      repeat split; auto.
      apply ReFacts.matches_at_least_iff. exists middle, [d2].
      repeat split; auto.
      - erewrite forallb_same; [exact Hmid|]. apply phone_class.
      - apply ReFacts.matches_one_iff. exists d2, [].
        repeat split; auto. constructor. }
    apply ReFacts.matches_opt_iff. destruct Hsign as [->| ->].
    + now left.
    + right. exists (ch "+"), (d1 :: middle ++ [d2]).
      repeat split; auto.
Qed.

(** C5: the length rule appends "too short" exactly when the number of
    [\w+] matches is below 300, "too long" exactly when it is above 900,
    and so one of the two or none; the word count returned is the number
    of [\w+] matches, that is of maximal runs of word characters, 3 for
    "Hello, World! 123". *)
Theorem analyze_resume_length_rule text :
  exists r,
    analyze_resume scorer text = Some r
    /\ word_count r = Z.of_nat (length (Re.findall word_re text))
    /\ word_count r = Z.of_nat (count_runs is_word false text)
    /\ (In too_short (suggestions r) <-> word_count r < 300)
    /\ (In too_long (suggestions r) <-> 900 < word_count r)
    /\ count_of [too_short; too_long] (suggestions r)
       = (if word_count r <? 300 then 1%nat
          else if word_count r >? 900 then 1%nat else 0%nat)
    /\ exists r',
         analyze_resume scorer (str "Hello, World! 123") = Some r'
         /\ word_count r' = 3.
Proof.
  eexists. split; [apply analyze_resume_returns|].
  cbn [suggestions word_count]. split; [reflexivity|].
  split; [unfold count_words, word_re;
          now rewrite ReFacts.findall_plus_length|].
  rewrite too_short_raised, too_long_raised, length_rule_count.
  rewrite andb_true_iff, negb_true_iff, Z.gtb_ltb, !Z.ltb_lt, Z.ltb_ge.
  repeat split; try lia.
  eexists. split; [apply analyze_resume_returns|]. reflexivity.
Qed.

(** C6: the phone pattern (a plus sign or nothing, a digit, eight or more
    digits, white space or hyphens, a digit) matches "+1 555-123-4567" and
    does not match "12345"; the analyzer appends the phone suggestion
    exactly when the pattern has no match in the text. *)
Theorem analyze_resume_phone_rule text :
  Re.search phone_re (str "+1 555-123-4567") = true
  /\ Re.search phone_re (str "12345") = false
  /\ (forall w, matches phone_re w <-> phone_shape w)
  /\ exists r,
       analyze_resume scorer text = Some r
       /\ (In no_phone (suggestions r) <-> Re.search phone_re text = false)
       /\ (In no_phone (suggestions r) <-> ~ occurs phone_re text).
Proof.
  split; [vm_compute; reflexivity|].
  split; [vm_compute; reflexivity|].
  split; [apply phone_re_shape|].
  eexists. split; [apply analyze_resume_returns|].
  cbn [suggestions].
  rewrite no_phone_raised, negb_true_iff, <- ReFacts.search_false_iff.
  tauto.
Qed.

(** C7: the email pattern (code points that are not white space, an at
    sign, more of them, a full stop, more of them) matches
    "jane.doe@example.com" and does not match "jane.doe(at)example.com";
    the analyzer appends the email suggestion exactly when the pattern has
    no match in the text. *)
Theorem analyze_resume_email_rule text :
  Re.search email_re (str "jane.doe@example.com") = true
  /\ Re.search email_re (str "jane.doe(at)example.com") = false
  /\ (forall w, matches email_re w <-> email_shape w)
  /\ exists r,
       analyze_resume scorer text = Some r
       /\ (In no_email (suggestions r) <-> Re.search email_re text = false)
       /\ (In no_email (suggestions r) <-> ~ occurs email_re text).
Proof.
  split; [vm_compute; reflexivity|].
  split; [vm_compute; reflexivity|].
  split; [apply email_re_shape|].
  eexists. split; [apply analyze_resume_returns|].
  cbn [suggestions].
  rewrite no_email_raised, negb_true_iff, <- ReFacts.search_false_iff.
  tauto.
Qed.

End Claims.

(** C10: on the empty string, with the fallback scorer, the analyzer
    returns the word count 0, the readability 121.2, which is not below
    50 and raises nothing, nine suggestions (four sections, length, verbs,
    keywords, email, phone) and the score 0. *)
Theorem analyze_resume_empty {U : Unicode} :
  exists r,
    analyze_resume flesch_reading_ease (str "") = Some r
    /\ word_count r = 0
    /\ readability_score r = Float.ratio 1212 10
    /\ Float.ltb (readability_score r) (Float.of_Z 50) = false
    /\ ~ In too_complex (suggestions r)
    /\ length (suggestions r) = 9%nat
    /\ suggestions r
       = map missing_section required_sections
           ++ [too_short; no_action_verbs; no_tech_keywords; no_email;
               no_phone]
    /\ score r = 0.
Proof.
  eexists. split; [apply (analyze_resume_returns flesch_reading_ease)|].
  cbn [suggestions word_count readability_score score].
  rewrite (too_complex_raised flesch_reading_ease).
  repeat split; try (vm_compute; reflexivity).
  vm_compute. discriminate.
Qed.

(** The fallback formula on the sample sentence of the specification:
    2 sentences, 7 words and 7 vowels give 118.6825, hence 118.7. *)
Example flesch_reading_ease_sample {U : Unicode} :
  flesch_reading_ease (str "This is a test. It works well.")
  = Float.ratio 1187 10.
Proof. vm_compute. reflexivity. Qed.

(** ** Extraction *)

Section ExtractionFacts.

Variable pdf_pages : UploadedFile -> option (list (option ustr)).
Variable docx2txt_process : UploadedFile -> option ustr.

(** C8: for a file whose name ends with neither ".pdf" nor ".docx",
    [extract_text] returns the empty string and calls neither library. *)
Theorem extract_text_unsupported (uploaded_file : UploadedFile) :
  endswith (name uploaded_file) (str ".pdf") = false ->
  endswith (name uploaded_file) (str ".docx") = false ->
  extract_text pdf_pages docx2txt_process uploaded_file = ([], Some (str "")).
Proof.
  intros Hpdf Hdocx. unfold extract_text. now rewrite Hpdf, Hdocx.
Qed.

End ExtractionFacts.

(** C8 at a file named "resume.txt", whatever the libraries would do. *)
Lemma extract_text_unsupported_witness :
  extract_text (fun _ => None) (fun _ => None)
    {| name := str "resume.txt"; data := [] |} = ([], Some (str "")).
Proof.
  apply extract_text_unsupported; vm_compute; reflexivity.
Defined.

(** C1 as stated fails: on [sample_four] the analyzer gives four
    suggestions, so [passed = 3] and [round(300 / 7) = 43], but the score
    is 42. *)
Lemma analyze_resume_score_not_rounded :
  exists r,
    analyze_resume (U := ascii_only) (flesch_reading_ease (U := ascii_only))
      sample_four = Some r
    /\ length (suggestions r) = 4%nat
    /\ score r = 42
    /\ score r
       <> Z.max 0
            (python_round (100 * (7 - Z.of_nat (length (suggestions r)))) 7).
Proof.
  eexists. split; [vm_compute; reflexivity|].
  repeat split. vm_compute. discriminate.
Qed.

(** C2 at [sample_ten], scored by the fallback formula. *)
Lemma analyze_resume_all_fail_witness :
  exists r,
    analyze_resume (U := ascii_only) (flesch_reading_ease (U := ascii_only))
      sample_ten = Some r
    /\ length (suggestions r) = 10%nat
    /\ 7 - Z.of_nat (length (suggestions r)) < 0
    /\ score r = 0.
Proof.
  apply (analyze_resume_all_fail (U := ascii_only)
           (flesch_reading_ease (U := ascii_only)) sample_ten);
    vm_compute; reflexivity.
Defined.

(** C3 at [sample_none], scored by the fallback formula. *)
Lemma analyze_resume_all_pass_witness :
  length required_sections = 4%nat
  /\ length action_verbs = 8%nat
  /\ length tech_keywords = 11%nat
  /\ exists r,
       analyze_resume (U := ascii_only)
         (flesch_reading_ease (U := ascii_only)) sample_none = Some r
       /\ suggestions r = []
       /\ score r = 100.
Proof.
  apply (analyze_resume_all_pass (U := ascii_only)
           (flesch_reading_ease (U := ascii_only)) sample_none);
    try (vm_compute; reflexivity).
  split; vm_compute; discriminate.
Defined.

(** * Further properties *)

(** ** Order and number of the suggestions *)

Lemma analyze_resume_inv {U : Unicode} scorer text r :
  analyze_resume scorer text = Some r ->
  suggestions r = raised (rule_table scorer text)
  /\ word_count r = count_words text
  /\ readability_score r = scorer text
  /\ score r
     = Z.max 0
         (Z.quot
            (100 * (7 - Z.of_nat (length (raised (rule_table scorer text)))))
            7).
Proof.
  rewrite analyze_resume_returns. intros H.
  assert (E : forall a b : analysis, Some a = Some b -> a = b)
    by (intros a b Hab; congruence).
  apply E in H. rewrite <- H. repeat split.
Qed.

Lemma subseq_raised (table : list (bool * ustr)) :
  subseq (raised table) (map snd table).
Proof.
  unfold raised. induction table as [|[[|] m] table IH]; simpl.
  - constructor.
  - now apply subseq_take.
  - now apply subseq_skip.
Qed.

Lemma subseq_In {A} (a b : list A) x : subseq a b -> In x a -> In x b.
Proof.
  induction 1; simpl; intuition.
Qed.

Lemma subseq_NoDup {A} (a b : list A) : subseq a b -> NoDup b -> NoDup a.
Proof.
  induction 1 as [|x a b H IH|x a b H IH]; intros Hb.
  - constructor.
  - inversion Hb; auto.
  - inversion Hb as [|? ? Hx Hb']; subst. constructor; auto.
    intros Hin. apply Hx. eapply subseq_In; eauto.
Qed.

Lemma rule_table_messages {U : Unicode} scorer text :
  map snd (rule_table scorer text) = all_messages.
Proof.
  unfold rule_table, all_messages. rewrite map_app, map_map. reflexivity.
Qed.

Lemma all_messages_NoDup {U : Unicode} : NoDup all_messages.
Proof.
  unfold all_messages, required_sections. cbn [map app].
  repeat (constructor;
          [ cbn [In]; intros H;
            repeat (destruct H as [H|H]; [distinct H|]); exact H | ]).
  constructor.
Qed.

(** X1: the suggestions come in the order of the checks and none comes
    twice: they are the list of all messages with some left out. *)
Theorem suggestions_ordered {U : Unicode} scorer text :
  exists r,
    analyze_resume scorer text = Some r
    /\ subseq (suggestions r) all_messages
    /\ NoDup (suggestions r).
Proof.
  eexists. split; [apply analyze_resume_returns|]. cbn [suggestions].
  assert (H : subseq (raised (rule_table scorer text)) all_messages)
    by (rewrite <- (rule_table_messages scorer text); apply subseq_raised).
  split; [exact H|].
  exact (subseq_NoDup H all_messages_NoDup).
Qed.

Lemma score_zero_by_count n :
  (n <= 10)%nat ->
  (Z.max 0 (Z.quot (100 * (7 - Z.of_nat n)) 7) = 0 <-> (7 <= n)%nat).
Proof.
  intros Hn.
  do 11 (destruct n as [|n];
         [vm_compute; split; intros; try discriminate; try lia; auto|]).
  lia.
Qed.

(** X2: the score is 0 exactly when there are seven suggestions or more,
    whichever checks gave them. *)
Theorem score_zero_iff {U : Unicode} scorer text :
  exists r,
    analyze_resume scorer text = Some r
    /\ (score r = 0 <-> (7 <= length (suggestions r))%nat).
Proof.
  eexists. split; [apply analyze_resume_returns|].
  cbn [suggestions score].
  apply score_zero_by_count, suggestions_at_most_ten.
Qed.

(** X3: more suggestions never give a higher score, across texts and
    scorers. *)
Theorem score_antitone {U : Unicode} scorer1 scorer2 text1 text2 r1 r2 :
  analyze_resume scorer1 text1 = Some r1 ->
  analyze_resume scorer2 text2 = Some r2 ->
  (length (suggestions r1) <= length (suggestions r2))%nat ->
  score r2 <= score r1.
Proof.
  intros H1 H2.
  apply analyze_resume_inv in H1 as (-> & _ & _ & ->).
  apply analyze_resume_inv in H2 as (-> & _ & _ & ->).
  intros H. apply Z.max_le_compat_l, Z.quot_le_mono; lia.
Qed.

Lemma score_antitone_witness :
  exists r1 r2,
    analyze_resume (U := ascii_only) (flesch_reading_ease (U := ascii_only))
      sample_four = Some r1
    /\ analyze_resume (U := ascii_only)
         (flesch_reading_ease (U := ascii_only)) sample_ten = Some r2
    /\ score r2 <= score r1.
Proof.
  eexists. eexists.
  split; [vm_compute; reflexivity|]. split; [vm_compute; reflexivity|].
  eapply (score_antitone (U := ascii_only)
            (flesch_reading_ease (U := ascii_only))
            (flesch_reading_ease (U := ascii_only)) sample_four sample_ten);
    [vm_compute; reflexivity | vm_compute; reflexivity | vm_compute; lia].
Defined.

(** ** Keywords are substrings, in any case *)

Ltac message_rule :=
  rewrite raised_In; unfold rule_table, required_sections;
  cbn [map app In];
  split;
  [ intros H; repeat (destruct H as [H|H]); try contradiction;
    let Hb := fresh "Hb" in
    let Hm := fresh "Hm" in
    pose proof (f_equal fst H) as Hb; pose proof (f_equal snd H) as Hm;
    cbn [fst snd] in Hb, Hm; first [distinct Hm | exact Hb]
  | intros H; rewrite H; auto 12 ].

Lemma missing_section_raised {U : Unicode} scorer text section :
  In section required_sections ->
  In (missing_section section) (raised (rule_table scorer text))
  <-> negb (contains (lower text) section) = true.
Proof.
  intros Hin. unfold required_sections in Hin. cbn [In] in Hin.
  destruct Hin as [<-|[<-|[<-|[<-|[]]]]]; message_rule.
Qed.

Lemma no_action_verbs_raised {U : Unicode} scorer text :
  In no_action_verbs (raised (rule_table scorer text))
  <-> negb (existsb (contains (lower text)) action_verbs) = true.
Proof. message_rule. Qed.

Lemma no_tech_keywords_raised {U : Unicode} scorer text :
  In no_tech_keywords (raised (rule_table scorer text))
  <-> negb (existsb (contains (lower text)) tech_keywords) = true.
Proof. message_rule. Qed.

(** X4: a section name written anywhere in the text, in any mix of ASCII
    upper and lower case and even inside a longer word, counts as the
    section: its "missing section" message is not given. *)
Theorem section_found_in_any_case {U : Unicode} scorer text section
    pre w post :
  In section required_sections ->
  text = pre ++ w ++ post ->
  forallb is_ascii w = true ->
  map ascii_lower w = section ->
  exists r,
    analyze_resume scorer text = Some r
    /\ ~ In (missing_section section) (suggestions r).
Proof.
  intros Hin Htext Hascii Hlow.
  eexists. split; [apply analyze_resume_returns|]. cbn [suggestions].
  rewrite (missing_section_raised scorer text Hin).
  rewrite <- Hlow, (@contains_any_case _ _ _ _ _ Htext Hascii).
  discriminate.
Qed.

Lemma section_found_in_any_case_witness :
  exists r,
    analyze_resume (U := ascii_only) (flesch_reading_ease (U := ascii_only))
      (str "My SKILLSET: none") = Some r
    /\ ~ In (missing_section (U := ascii_only) (str "skills"))
           (suggestions r).
Proof.
  apply (@section_found_in_any_case ascii_only
           (flesch_reading_ease (U := ascii_only))
           (str "My SKILLSET: none") (str "skills")
           (str "My ") (str "SKILLS") (str "ET: none"));
    vm_compute; auto.
Defined.

(** X5: an action verb or a technical keyword written anywhere in the
    text, in any mix of ASCII case and even inside a longer word, passes
    its check ("knowledge" has "led", "JavaScript" has "java"). *)
Theorem keyword_found_in_any_case {U : Unicode} scorer text keyword
    pre w post :
  text = pre ++ w ++ post ->
  forallb is_ascii w = true ->
  map ascii_lower w = keyword ->
  exists r,
    analyze_resume scorer text = Some r
    /\ (In keyword action_verbs -> ~ In no_action_verbs (suggestions r))
    /\ (In keyword tech_keywords -> ~ In no_tech_keywords (suggestions r)).
Proof.
  intros Htext Hascii Hlow.
  pose proof (@contains_any_case _ _ _ _ _ Htext Hascii) as Hc.
  rewrite Hlow in Hc.
  eexists. split; [apply analyze_resume_returns|]. cbn [suggestions].
  rewrite no_action_verbs_raised, no_tech_keywords_raised.
  split; intros Hin; rewrite negb_true_iff;
    (assert (E : forall l, In keyword l ->
                           existsb (contains (lower text)) l = true)
       by (intros l Hl; apply existsb_exists; eauto));
    rewrite (E _ Hin); discriminate.
Qed.

Lemma keyword_found_in_any_case_witness :
  exists r,
    analyze_resume (U := ascii_only) (flesch_reading_ease (U := ascii_only))
      (str "Knowledge of JavaScript") = Some r
    /\ (In (str "led") action_verbs -> ~ In no_action_verbs (suggestions r))
    /\ (In (str "led") tech_keywords
        -> ~ In no_tech_keywords (suggestions r)).
Proof.
  apply (@keyword_found_in_any_case ascii_only
           (flesch_reading_ease (U := ascii_only))
           (str "Knowledge of JavaScript") (str "led")
           (str "Know") (str "led") (str "ge of JavaScript"));
    vm_compute; reflexivity.
Defined.

(** ** The readability backend *)

Lemma rule_table_last {U : Unicode} scorer scorer' text :
  rule_table scorer text
  = removelast (rule_table scorer' text)
      ++ [(Float.ltb (scorer text) (Float.of_Z 50), too_complex)].
Proof.
  unfold rule_table, required_sections. cbn [map app removelast].
  reflexivity.
Qed.

(** X6: the readability backend decides the last suggestion only: with
    any backend the analyzer gives the same word count and the same
    other suggestions, followed by the "complex language" message exactly
    when the backend's value is below 50. *)
Theorem scorer_decides_last_suggestion {U : Unicode} text :
  exists base,
    forall scorer,
      exists r,
        analyze_resume scorer text = Some r
        /\ word_count r = count_words text
        /\ readability_score r = scorer text
        /\ suggestions r
           = base ++ (if Float.ltb (scorer text) (Float.of_Z 50)
                      then [too_complex] else []).
Proof.
  exists (raised (removelast (rule_table (fun _ => S754_nan) text))).
  intros scorer.
  eexists. split; [apply analyze_resume_returns|].
  cbn [suggestions word_count readability_score].
  repeat split.
  rewrite (rule_table_last scorer (fun _ => S754_nan) text) at 1.
  rewrite raised_app. f_equal.
  destruct (Float.ltb (scorer text) (Float.of_Z 50)); reflexivity.
Qed.

(** ** Words *)

Lemma count_words_runs {U : Unicode} text :
  count_words text = Z.of_nat (ReSpec.count_runs is_word false text).
Proof.
  unfold count_words, word_re. now rewrite ReFacts.findall_plus_length.
Qed.

(** A run takes a code point and, but for the last run, a separator. *)
Lemma count_runs_bound p s :
  (2 * ReSpec.count_runs p true s <= length s)%nat
  /\ (2 * ReSpec.count_runs p false s <= length s + 1)%nat.
Proof.
  induction s as [|c s [IHt IHf]]; simpl; [lia|].
  destruct (p c); lia.
Qed.

Lemma count_runs_app_sep p inside a c b :
  p c = false ->
  ReSpec.count_runs p inside (a ++ c :: b)
  = (ReSpec.count_runs p inside a + ReSpec.count_runs p false b)%nat.
Proof.
  intros Hc. revert inside; induction a as [|x a IH]; intros inside; simpl.
  - now rewrite Hc.
  - destruct (p x); rewrite IH; lia.
Qed.

(** X7: a text of fewer than 599 code points cannot hold 300 words: it
    always gets the "too short" message and never the "too long" one. *)
Theorem short_text_too_short {U : Unicode} scorer text :
  (length text < 599)%nat ->
  exists r,
    analyze_resume scorer text = Some r
    /\ In too_short (suggestions r)
    /\ ~ In too_long (suggestions r).
Proof.
  intros Hlen.
  eexists. split; [apply analyze_resume_returns|]. cbn [suggestions].
  rewrite too_short_raised, too_long_raised.
  pose proof (proj2 (count_runs_bound is_word text)) as Hb.
  assert (Hwc : (count_words text <? 300) = true)
    by (apply Z.ltb_lt; rewrite count_words_runs; lia).
  rewrite Hwc. split; [reflexivity|discriminate].
Qed.

Lemma short_text_too_short_witness :
  exists r,
    analyze_resume (U := ascii_only) (flesch_reading_ease (U := ascii_only))
      sample_four = Some r
    /\ In too_short (suggestions r)
    /\ ~ In too_long (suggestions r).
Proof.
  apply (@short_text_too_short ascii_only
           (flesch_reading_ease (U := ascii_only)) sample_four).
  vm_compute. lia.
Defined.

(** X8: the word count of two texts joined by a code point that is not a
    word character (a space, a comma, a line feed) is the sum of their
    word counts. *)
Theorem count_words_joined {U : Unicode} scorer a c b :
  is_word c = false ->
  exists ra rb r,
    analyze_resume scorer a = Some ra
    /\ analyze_resume scorer b = Some rb
    /\ analyze_resume scorer (a ++ c :: b) = Some r
    /\ word_count r = word_count ra + word_count rb.
Proof.
  intros Hc.
  do 3 eexists.
  split; [apply analyze_resume_returns|].
  split; [apply analyze_resume_returns|].
  split; [apply analyze_resume_returns|].
  cbn [word_count]. rewrite !count_words_runs, count_runs_app_sep by exact Hc.
  lia.
Qed.

Lemma count_words_joined_witness :
  exists ra rb r,
    analyze_resume (U := ascii_only) (flesch_reading_ease (U := ascii_only))
      (str "Hello, World") = Some ra
    /\ analyze_resume (U := ascii_only)
         (flesch_reading_ease (U := ascii_only)) (str "123") = Some rb
    /\ analyze_resume (U := ascii_only)
         (flesch_reading_ease (U := ascii_only))
         (str "Hello, World" ++ ch "!" :: str "123") = Some r
    /\ word_count r = word_count ra + word_count rb.
Proof.
  apply (@count_words_joined ascii_only
           (flesch_reading_ease (U := ascii_only))
           (str "Hello, World") (ch "!") (str "123")).
  vm_compute. reflexivity.
Defined.

(** ** The fallback scorer on whole-text counts *)

Section Syllables.

Context {U : Unicode}.

Lemma split_from_concat cur s :
  concat (split_from cur s) = rev cur ++ filter not_space s.
Proof.
  revert cur; induction s as [|c s IH]; intros cur; simpl.
  - destruct cur; simpl; now rewrite ?app_nil_r.
  - unfold not_space at 1. destruct (is_space c); simpl.
    + destruct cur; simpl; now rewrite IH.
    + rewrite IH. simpl. now rewrite <- app_assoc.
Qed.

Lemma sum_filter_concat (p : char -> bool) (l : list ustr) :
  list_sum (map (fun w => length (filter p w)) l)
  = length (filter p (concat l)).
Proof.
  induction l as [|w l IH]; simpl; [reflexivity|].
  now rewrite filter_app, length_app, IH.
Qed.

Lemma in_set_cases (set : string) c :
  one_of set c = true -> In c (str set).
Proof.
  unfold one_of. intros H. apply existsb_exists in H as (x & Hx & E).
  apply char_eqb_eq in E. now subst.
Qed.

Lemma vowel_not_space c : is_vowel c = true -> not_space c = true.
Proof.
  intros H. apply in_set_cases in H. vm_compute in H.
  repeat (destruct H as [<-|H]; [reflexivity|]). contradiction.
Qed.

Lemma vowel_is_word c : is_vowel c = true -> is_word c = true.
Proof.
  intros H. apply in_set_cases in H. vm_compute in H.
  repeat (destruct H as [<-|H]; [reflexivity|]). contradiction.
Qed.

Lemma filter_filter_implied (p q : char -> bool) (s : ustr) :
  (forall c, p c = true -> q c = true) ->
  filter p (filter q s) = filter p s.
Proof.
  intros H. induction s as [|c s IH]; simpl; [reflexivity|].
  destruct (q c) eqn:Hq; simpl.
  - destruct (p c); now rewrite IH.
  - destruct (p c) eqn:Hp; [|exact IH].
    apply H in Hp. congruence.
Qed.

(** Splitting at white space loses no vowel. *)
Lemma syllables_whole_text text :
  list_sum (map (fun w => length (filter is_vowel w)) (split text))
  = length (filter is_vowel text).
Proof.
  rewrite sum_filter_concat. unfold split. rewrite split_from_concat.
  simpl. now rewrite (filter_filter_implied _ _ _ vowel_not_space).
Qed.

(** X9: the fallback readability is a function of three counts over the
    whole text: the sentence marks, the maximal runs of word characters
    and the vowels (the split into tokens changes nothing), each taken as
    1 when it is 0. *)
Theorem flesch_reading_ease_counts text :
  flesch_reading_ease text
  = flesch_of_counts
      (at_least_one (length (filter (one_of ".!?") text)))
      (at_least_one (ReSpec.count_runs is_word false text))
      (at_least_one (length (filter is_vowel text))).
Proof.
  unfold flesch_reading_ease, flesch_of_counts, sentence_re, vowel_re,
    word_re.
  rewrite !at_least_one_to_pos, !or_1_at_least_one, sum_list_sum.
  rewrite ReFacts.findall_one_length, ReFacts.findall_plus_length.
  rewrite (map_ext _ (fun w => length (filter is_vowel w)))
    by (intros w; apply ReFacts.findall_one_length).
  now rewrite syllables_whole_text.
Qed.

End Syllables.

Lemma filter_none (p : char -> bool) (s : ustr) :
  forallb (fun c => negb (p c)) s = true -> filter p s = [].
Proof.
  induction s as [|c s IH]; simpl; [reflexivity|].
  intros H. apply andb_true_iff in H as [Hc Hs].
  apply negb_true_iff in Hc. rewrite Hc. auto.
Qed.

Lemma count_runs_none p inside (s : ustr) :
  forallb (fun c => negb (p c)) s = true -> ReSpec.count_runs p inside s = O.
Proof.
  revert inside; induction s as [|c s IH]; intros inside; simpl;
    [reflexivity|].
  intros H. apply andb_true_iff in H as [Hc Hs].
  apply negb_true_iff in Hc. rewrite Hc. auto.
Qed.

Lemma forallb_weaken (p q : char -> bool) (s : ustr) :
  (forall c, p c = true -> q c = true) ->
  forallb p s = true -> forallb q s = true.
Proof.
  intros H. induction s as [|c s IH]; simpl; [reflexivity|].
  intros Hs. apply andb_true_iff in Hs as [Hc Hs].
  rewrite (H _ Hc). auto.
Qed.

(** X10: a text with no word character and no sentence mark (an empty or
    blank text, a row of dashes) has the fallback readability 121.2, all
    three counts being taken as 1; analyzed with the fallback scorer it
    has the word count 0 and gets "too short" but never "complex
    language". *)
Theorem blank_text_readability {U : Unicode} text :
  forallb (fun c => negb (is_word c || one_of ".!?" c)) text = true ->
  flesch_reading_ease text = Float.ratio 1212 10
  /\ exists r,
       analyze_resume flesch_reading_ease text = Some r
       /\ word_count r = 0
       /\ In too_short (suggestions r)
       /\ ~ In too_complex (suggestions r).
Proof.
  intros H.
  assert (Hw : forallb (fun c => negb (is_word c)) text = true).
  { revert H. apply forallb_weaken. intros c Hc.
    apply negb_true_iff, orb_false_iff in Hc as [-> _]. reflexivity. }
  assert (Hs : forallb (fun c => negb (one_of ".!?" c)) text = true).
  { revert H. apply forallb_weaken. intros c Hc.
    apply negb_true_iff, orb_false_iff in Hc as [_ ->]. reflexivity. }
  assert (Hv : forallb (fun c => negb (is_vowel c)) text = true).
  { revert Hw. apply forallb_weaken. intros c Hc.
    destruct (is_vowel c) eqn:E; [|reflexivity].
    apply vowel_is_word in E. rewrite E in Hc. discriminate. }
  assert (Hf : flesch_reading_ease text = Float.ratio 1212 10).
  { rewrite flesch_reading_ease_counts.
    rewrite (filter_none _ _ Hs), (filter_none _ _ Hv),
      (count_runs_none _ false _ Hw).
    vm_compute. reflexivity. }
  split; [exact Hf|].
  eexists. split; [apply (analyze_resume_returns flesch_reading_ease)|].
  cbn [suggestions word_count].
  rewrite (too_short_raised flesch_reading_ease),
    (too_complex_raised flesch_reading_ease), Hf.
  rewrite count_words_runs, (count_runs_none _ false _ Hw).
  repeat split. vm_compute. discriminate.
Qed.

Lemma blank_text_readability_witness :
  flesch_reading_ease (U := ascii_only) (str " --- ") = Float.ratio 1212 10
  /\ exists r,
       analyze_resume (U := ascii_only)
         (flesch_reading_ease (U := ascii_only)) (str " --- ") = Some r
       /\ word_count r = 0
       /\ In too_short (suggestions r)
       /\ ~ In too_complex (suggestions r).
Proof.
  apply (@blank_text_readability ascii_only (str " --- ")).
  vm_compute. reflexivity.
Defined.

(** ** Contact details *)

Section Contact.

Context {U : Unicode}.

Variable scorer : ustr -> Float.float.

Import ReSpec.

(** X11: a text without an at sign, or without a full stop, always gets
    the "email not found" message. *)
Theorem no_at_sign_no_email text :
  ~ In (ch "@") text \/ ~ In (ch ".") text ->
  exists r,
    analyze_resume scorer text = Some r /\ In no_email (suggestions r).
Proof.
  intros H.
  eexists. split; [apply analyze_resume_returns|]. cbn [suggestions].
  rewrite no_email_raised, negb_true_iff, ReFacts.search_false_iff.
  intros (pre & w & post & -> & Hw).
  apply email_re_shape in Hw as (a & b & c & -> & _).
  destruct H as [H|H]; apply H; rewrite !in_app_iff; simpl;
    rewrite ?in_app_iff; simpl; tauto.
Qed.

Lemma digits_of_app (a b : ustr) :
  length (filter is_digit (a ++ b))
  = (length (filter is_digit a) + length (filter is_digit b))%nat.
Proof. now rewrite filter_app, length_app. Qed.

(** X12: a text with fewer than two digits always gets the "contact
    number not found" message. *)
Theorem one_digit_no_phone text :
  (length (filter is_digit text) < 2)%nat ->
  exists r,
    analyze_resume scorer text = Some r /\ In no_phone (suggestions r).
Proof.
  intros H.
  eexists. split; [apply analyze_resume_returns|]. cbn [suggestions].
  rewrite no_phone_raised, negb_true_iff, ReFacts.search_false_iff.
  intros (pre & w & post & -> & Hw).
  apply (phone_re_shape scorer) in Hw
    as (sign & d1 & middle & d2 & -> & _ & Hd1 & _ & _ & Hd2).
  revert H. rewrite !digits_of_app. cbn [filter]. rewrite Hd1.
  cbn [length]. rewrite digits_of_app. cbn [filter]. rewrite Hd2.
  cbn [length]. lia.
Qed.

(** X13: two digits with eight or more digits, white space or hyphens
    between them, anywhere in the text, count as a phone number: the
    "contact number not found" message is not given.  White space
    includes line ends, and a range of years such as "2019 - 2021" is
    enough. *)
Theorem spaced_digits_are_a_phone text pre d1 middle d2 post :
  text = pre ++ d1 :: middle ++ d2 :: post ->
  is_digit d1 = true ->
  is_digit d2 = true ->
  (8 <= length middle)%nat ->
  forallb (fun c => is_digit c || is_space c || char_eqb c (ch "-")) middle
  = true ->
  exists r,
    analyze_resume scorer text = Some r /\ ~ In no_phone (suggestions r).
Proof.
  intros -> Hd1 Hd2 Hlen Hmid.
  eexists. split; [apply analyze_resume_returns|]. cbn [suggestions].
  rewrite no_phone_raised, negb_true_iff, ReFacts.search_false_iff.
  intros Hno. apply Hno.
  exists pre, (d1 :: middle ++ [d2]), post. split.
  - simpl. rewrite <- !app_assoc. reflexivity.
  - apply (phone_re_shape scorer). exists [], d1, middle, d2.
    simpl. tauto.
Qed.

End Contact.

Lemma no_at_sign_no_email_witness :
  exists r,
    analyze_resume (U := ascii_only) (flesch_reading_ease (U := ascii_only))
      (str "jane.doe(at)example.com") = Some r
    /\ In no_email (suggestions r).
Proof.
  apply (@no_at_sign_no_email ascii_only
           (flesch_reading_ease (U := ascii_only))
           (str "jane.doe(at)example.com")).
  left. vm_compute. intros H.
  repeat (destruct H as [H|H]; [discriminate H|]). exact H.
Defined.

Lemma one_digit_no_phone_witness :
  exists r,
    analyze_resume (U := ascii_only) (flesch_reading_ease (U := ascii_only))
      (str "Call me at 7") = Some r
    /\ In no_phone (suggestions r).
Proof.
  apply (@one_digit_no_phone ascii_only
           (flesch_reading_ease (U := ascii_only)) (str "Call me at 7")).
  vm_compute. lia.
Defined.

Lemma spaced_digits_are_a_phone_witness :
  exists r,
    analyze_resume (U := ascii_only) (flesch_reading_ease (U := ascii_only))
      (str "Intern, 2019 - 2021.") = Some r
    /\ ~ In no_phone (suggestions r).
Proof.
  apply (@spaced_digits_are_a_phone ascii_only
           (flesch_reading_ease (U := ascii_only))
           (str "Intern, 2019 - 2021.")
           (str "Intern, ") (ch "2") (str "019 - 202") (ch "1") (str "."));
    vm_compute; try reflexivity.
  lia.
Defined.

(** ** Extraction by file name *)

Section ExtractionMore.

Variable pdf_pages : UploadedFile -> option (list (option ustr)).
Variable docx2txt_process : UploadedFile -> option ustr.

Lemma fold_pages (pages : list (option ustr)) (acc : ustr) :
  fold_left (fun text page => text ++ or_empty page) pages acc
  = acc ++ concat (map or_empty pages).
Proof.
  revert acc; induction pages as [|page pages IH]; intros acc; simpl.
  - now rewrite app_nil_r.
  - now rewrite IH, app_assoc.
Qed.

Lemma docx_is_not_pdf (n : ustr) :
  endswith n (str ".docx") = true -> endswith n (str ".pdf") = false.
Proof.
  unfold endswith. destruct (rev n) as [|c l]; [reflexivity|].
  intros H.
  assert (Hc : c = ch "x").
  { change (rev (str ".docx")) with (ch "x" :: rev (str ".doc")) in H.
    cbn [startswith] in H. apply andb_true_iff in H as [H _].
    apply char_eqb_eq in H. congruence. }
  subst c. reflexivity.
Qed.

(** X14: for a name that ends with ".pdf" the text is that of the pages
    in page order, a page without text adding nothing; the PDF library is
    called once, the other not at all, and when the PDF library raises so
    does the extraction. *)
Theorem extract_text_pdf (uploaded_file : UploadedFile) :
  endswith (name uploaded_file) (str ".pdf") = true ->
  extract_text pdf_pages docx2txt_process uploaded_file
  = ([PdfOpen uploaded_file],
     option_map (fun pages => concat (map or_empty pages))
       (pdf_pages uploaded_file)).
Proof.
  intros H. unfold extract_text, extract_text_from_pdf, call, bind, ret.
  rewrite H. destruct (pdf_pages uploaded_file) as [pages|]; simpl.
  - now rewrite fold_pages.
  - reflexivity.
Qed.

(** X15: for a name that ends with ".docx" the text is what the DOCX
    library returns, or its exception; that library is called once and
    the PDF library not at all. *)
Theorem extract_text_docx (uploaded_file : UploadedFile) :
  endswith (name uploaded_file) (str ".docx") = true ->
  extract_text pdf_pages docx2txt_process uploaded_file
  = ([DocxProcess uploaded_file], docx2txt_process uploaded_file).
Proof.
  intros H. unfold extract_text, extract_text_from_docx, call.
  now rewrite (docx_is_not_pdf _ H), H.
Qed.

(** X16: the test of the name is case sensitive: a file named with an
    upper-case or capitalized extension is treated as unsupported, and
    gives the empty text without a library call. *)
Theorem extract_text_case_sensitive (uploaded_file : UploadedFile) base ext :
  name uploaded_file = base ++ ext ->
  In ext [str ".PDF"; str ".DOCX"; str ".Pdf"; str ".Docx"] ->
  extract_text pdf_pages docx2txt_process uploaded_file = ([], Some (str "")).
Proof.
  intros Hname Hext. unfold extract_text, endswith.
  rewrite Hname, rev_app_distr.
  cbn [In] in Hext.
  destruct Hext as [<-|[<-|[<-|[<-|[]]]]]; reflexivity.
Qed.

End ExtractionMore.

Lemma extract_text_pdf_witness :
  extract_text
    (fun _ => Some [Some (str "Page one. "); None; Some (str "Page three.")])
    (fun _ => None)
    {| name := str "cv.pdf"; data := [] |}
  = ([PdfOpen {| name := str "cv.pdf"; data := [] |}],
     Some (str "Page one. Page three.")).
Proof.
  apply (@extract_text_pdf
           (fun _ => Some [Some (str "Page one. "); None;
                           Some (str "Page three.")])
           (fun _ => None) {| name := str "cv.pdf"; data := [] |}).
  vm_compute. reflexivity.
Defined.

Lemma extract_text_docx_witness :
  extract_text (fun _ => None) (fun _ => Some (str "Skills"))
    {| name := str "cv.docx"; data := [] |}
  = ([DocxProcess {| name := str "cv.docx"; data := [] |}],
     Some (str "Skills")).
Proof.
  apply (@extract_text_docx (fun _ => None) (fun _ => Some (str "Skills"))
           {| name := str "cv.docx"; data := [] |}).
  vm_compute. reflexivity.
Defined.

Lemma extract_text_case_sensitive_witness :
  extract_text (fun _ => Some [Some (str "text")]) (fun _ => None)
    {| name := str "CV.PDF"; data := [] |}
  = ([], Some (str "")).
Proof.
  apply (@extract_text_case_sensitive
           (fun _ => Some [Some (str "text")]) (fun _ => None)
           {| name := str "CV.PDF"; data := [] |} (str "CV") (str ".PDF")).
  - vm_compute. reflexivity.
  - left. reflexivity.
Defined.

(** ** The page *)

Section Blank.

Context {U : Unicode}.

Lemma lstrip_nil_iff s : lstrip s = [] <-> forallb is_space s = true.
Proof.
  induction s as [|c s IH]; simpl; [tauto|].
  destruct (is_space c); simpl; [exact IH|].
  split; discriminate.
Qed.

Lemma lstrip_suffix s : exists dropped,
  s = dropped ++ lstrip s /\ forallb is_space dropped = true.
Proof.
  induction s as [|c s (d & Hs & Hd)]; simpl.
  - exists []. auto.
  - destruct (is_space c) eqn:Hc.
    + exists (c :: d). simpl. rewrite Hc, Hd.
      split; [f_equal; exact Hs|reflexivity].
    + exists []. auto.
Qed.

Lemma forallb_rev (p : char -> bool) (s : ustr) :
  forallb p (rev s) = forallb p s.
Proof.
  induction s as [|c s IH]; simpl; [reflexivity|].
  rewrite forallb_app, IH. simpl. rewrite andb_true_r. apply andb_comm.
Qed.

(** Nothing is left of a string by [strip] exactly when it is all white
    space. *)
Lemma strip_nil_iff s : strip s = [] <-> forallb is_space s = true.
Proof.
  unfold strip, rstrip.
  destruct (lstrip_suffix s) as (d & Hs & Hd).
  assert (E : forallb is_space s = forallb is_space (lstrip s)).
  { rewrite Hs at 1. rewrite forallb_app, Hd. reflexivity. }
  rewrite E, <- (forallb_rev is_space (lstrip s)), <- lstrip_nil_iff.
  split; intros H.
  - apply (f_equal (@rev char)) in H. now rewrite rev_involutive in H.
  - now rewrite H.
Qed.

End Blank.

Section PageFacts.

Context {U : Unicode}.

Variable scorer : ustr -> Float.float.
Variable pdf_pages : UploadedFile -> option (list (option ustr)).
Variable docx2txt_process : UploadedFile -> option ustr.
Variable format_float : Float.float -> ustr.

(** What the script does with the outcome of the extraction. *)
Lemma page_of_extraction uploaded_file tr t :
  extract_text pdf_pages docx2txt_process uploaded_file = (tr, Some t) ->
  page scorer pdf_pages docx2txt_process format_float (Some uploaded_file)
  = (tr,
     Some [Spinner ([129504]%N ++ str " Analyzing your resume...")
             (if forallb is_space t then [Error could_not_extract]
              else report format_float t
                     {| suggestions := raised (rule_table scorer t);
                        word_count := count_words t;
                        readability_score := scorer t;
                        score :=
                          Z.max 0
                            (Z.quot
                               (100 * (7 - Z.of_nat
                                             (length
                                                (raised
                                                   (rule_table scorer t)))))
                               7) |})]).
Proof.
  intros H. unfold page. rewrite H. unfold bind at 1.
  destruct (forallb is_space t) eqn:Hb.
  - apply strip_nil_iff in Hb. rewrite Hb. simpl.
    now rewrite app_nil_r.
  - destruct (strip t) eqn:Hs.
    + apply strip_nil_iff in Hs. congruence.
    + rewrite analyze_resume_returns. simpl. now rewrite app_nil_r.
Qed.

(** X17: when the extraction returns a text, the page is a spinner
    around either the error "could not extract text", exactly when the
    text is empty or all white space, or the report of the analysis of
    that text; the script calls no library of its own. *)
Theorem page_error_or_report uploaded_file tr t :
  extract_text pdf_pages docx2txt_process uploaded_file = (tr, Some t) ->
  exists body,
    page scorer pdf_pages docx2txt_process format_float (Some uploaded_file)
    = (tr, Some [Spinner ([129504]%N ++ str " Analyzing your resume...")
                   body])
    /\ (body = [Error could_not_extract] <-> forallb is_space t = true)
    /\ (forallb is_space t = false ->
        exists r,
          analyze_resume scorer t = Some r
          /\ body = report format_float t r).
Proof.
  intros H. eexists. split; [apply (page_of_extraction _ H)|].
  destruct (forallb is_space t).
  - split; [tauto|discriminate].
  - split.
    + split; [|discriminate]. unfold report, hr. intros E. discriminate E.
    + intros _. eexists. split; [apply analyze_resume_returns|reflexivity].
Qed.

(** X18: a file whose name ends with neither ".pdf" nor ".docx" gives
    the error "could not extract text" and nothing else; no library is
    called and nothing is analyzed. *)
Theorem page_unsupported uploaded_file :
  endswith (name uploaded_file) (str ".pdf") = false ->
  endswith (name uploaded_file) (str ".docx") = false ->
  page scorer pdf_pages docx2txt_process format_float (Some uploaded_file)
  = ([], Some [Spinner ([129504]%N ++ str " Analyzing your resume...")
                 [Error could_not_extract]]).
Proof.
  intros Hpdf Hdocx.
  assert (H : extract_text pdf_pages docx2txt_process uploaded_file
              = ([], Some []))
    by (unfold extract_text; now rewrite Hpdf, Hdocx).
  now rewrite (page_of_extraction _ H).
Qed.

(** X19: a PDF whose pages all have no text, or white space only (a
    scan), gives the error "could not extract text" after one call of the
    PDF library. *)
Theorem page_scanned_pdf uploaded_file pages :
  endswith (name uploaded_file) (str ".pdf") = true ->
  pdf_pages uploaded_file = Some pages ->
  forallb (fun page => forallb is_space (or_empty page)) pages = true ->
  page scorer pdf_pages docx2txt_process format_float (Some uploaded_file)
  = ([PdfOpen uploaded_file],
     Some [Spinner ([129504]%N ++ str " Analyzing your resume...")
             [Error could_not_extract]]).
Proof.
  intros Hpdf Hpages Hblank.
  assert (H : extract_text pdf_pages docx2txt_process uploaded_file
              = ([PdfOpen uploaded_file],
                 Some (concat (map or_empty pages)))).
  { unfold extract_text, extract_text_from_pdf, call, bind, ret.
    rewrite Hpdf, Hpages. simpl. now rewrite fold_pages. }
  rewrite (page_of_extraction _ H).
  assert (Hb : forallb is_space (concat (map or_empty pages)) = true).
  { clear H Hpages. induction pages as [|pg pages IH]; simpl;
      [reflexivity|].
    simpl in Hblank. apply andb_true_iff in Hblank as [H1 H2].
    rewrite forallb_app, H1. auto. }
  now rewrite Hb.
Qed.

(** The widgets of a report that are not suggestion boxes. *)
Lemma report_In t r w :
  In w (report format_float t r) ->
  In w [ hr;
         Subheader ([128202]%N ++ str " Resume Overview");
         Columns
           [ [Metric ([128221]%N ++ str " Word Count")
                (IntValue (word_count r))];
             [Metric ([128214]%N ++ str " Readability")
                (StrValue (format_float (readability_score r)))];
             [Metric ([11088]%N ++ str " Resume Score")
                (StrValue (decimal (score r) ++ str "%"))] ];
         Progress (Float.ratio (score r) 100);
         Expander ([128220]%N ++ str " View Extracted Text") [Write t];
         Subheader ([128161]%N ++ str " Suggestions for Improvement");
         tip ]
  \/ (suggestions r = [] /\ w = success_box)
  \/ (exists s, In s (suggestions r) /\ w = suggestion_box s).
Proof.
  unfold report. rewrite !in_app_iff. cbn [In].
  intros [H|[H|H]].
  - left. tauto.
  - destruct (suggestions r) as [|s l] eqn:E.
    + right. left. cbn [In] in H. destruct H as [<-|[]]. auto.
    + right. right. apply in_map_iff in H as (x & <- & Hx). eauto.
  - left. tauto.
Qed.

(** X20: the value handed to the progress bar is [score / 100] and lies
    between 0 and 1, as the bar requires. *)
Theorem progress_within_bounds text r v :
  analyze_resume scorer text = Some r ->
  In (Progress v) (report format_float text r) ->
  v = Float.ratio (score r) 100
  /\ Float.leb (Float.of_Z 0) v = true
  /\ Float.leb v (Float.of_Z 1) = true.
Proof.
  intros Hr Hin.
  assert (Hv : v = Float.ratio (score r) 100).
  { apply report_In in Hin as [H|[[_ H]|(s & _ & H)]];
      try discriminate H.
    cbn [In] in H.
    repeat (destruct H as [H|H]; [try discriminate H|]);
      try contradiction.
    congruence. }
  split; [exact Hv|]. subst v.
  apply analyze_resume_inv in Hr as (_ & _ & _ & ->).
  destruct (score_by_count (suggestions_at_most_ten scorer text))
    as (_ & _ & Hin' & _).
  cbn [In] in Hin'.
  repeat (destruct Hin' as [<-|Hin']; [split; vm_compute; reflexivity|]).
  contradiction.
Qed.

(** X21: the report congratulates exactly when the score is 100;
    otherwise it shows one box per suggestion, and never both. *)
Theorem success_box_iff_full_score text r :
  analyze_resume scorer text = Some r ->
  (In success_box (report format_float text r) <-> score r = 100)
  /\ (forall s, In (suggestion_box s) (report format_float text r)
                <-> In s (suggestions r))
  /\ (score r = 100 -> suggestions r = []).
Proof.
  intros Hr.
  assert (Hfull : score r = 100 <-> suggestions r = []).
  { apply analyze_resume_inv in Hr as (-> & _ & _ & ->).
    destruct (score_by_count (suggestions_at_most_ten scorer text))
      as (H100 & _). rewrite <- length_zero_iff_nil. exact H100. }
  assert (Hbox : forall s, suggestion_box s <> success_box).
  { intros s E. unfold suggestion_box, success_box in E.
    apply (f_equal (fun w => match w with
                             | Markdown b _ => nth 14 b 0%N
                             | _ => 0%N
                             end)) in E.
    vm_compute in E. discriminate E. }
  assert (Hinj : forall s s', suggestion_box s = suggestion_box s' -> s = s').
  { intros s s' E. unfold suggestion_box in E.
    assert (E' : str "<div class='suggestion-box'>" ++ s ++ str "</div>"
                 = str "<div class='suggestion-box'>" ++ s' ++ str "</div>")
      by congruence.
    apply app_inv_head in E'. now apply app_inv_tail in E'. }
  split; [|split].
  - rewrite Hfull. split.
    + intros Hin. apply report_In in Hin as [H|[[H _]|(s & _ & H)]].
      * cbn [In] in H.
        repeat (destruct H as [H|H]; [discriminate H|]). contradiction.
      * exact H.
      * symmetry in H. now apply Hbox in H.
    + intros E. unfold report. rewrite E, !in_app_iff. cbn [In]. tauto.
  - intros s. split.
    + intros Hin. apply report_In in Hin as [H|[[_ H]|(s' & Hs' & H)]].
      * cbn [In] in H.
        repeat (destruct H as [H|H]; [discriminate H|]). contradiction.
      * now apply Hbox in H.
      * apply Hinj in H. now subst.
    + intros Hin. unfold report. rewrite !in_app_iff. right. left.
      destruct (suggestions r) as [|x l] eqn:E; [contradiction|].
      apply in_map. exact Hin.
  - apply Hfull.
Qed.

End PageFacts.

Lemma page_error_or_report_witness :
  exists body,
    page (U := ascii_only) (flesch_reading_ease (U := ascii_only))
      (fun _ => None) (fun _ => Some (str "  ")) (fun _ => [])
      (Some {| name := str "cv.docx"; data := [] |})
    = ([DocxProcess {| name := str "cv.docx"; data := [] |}],
       Some [Spinner ([129504]%N ++ str " Analyzing your resume...") body])
    /\ (body = [Error could_not_extract]
        <-> forallb (is_space (U := ascii_only)) (str "  ") = true)
    /\ (forallb (is_space (U := ascii_only)) (str "  ") = false ->
        exists r,
          analyze_resume (U := ascii_only)
            (flesch_reading_ease (U := ascii_only)) (str "  ") = Some r
          /\ body = report (fun _ => []) (str "  ") r).
Proof.
  apply (@page_error_or_report ascii_only
           (flesch_reading_ease (U := ascii_only))
           (fun _ => None) (fun _ => Some (str "  ")) (fun _ => [])
           {| name := str "cv.docx"; data := [] |}).
  vm_compute. reflexivity.
Defined.

Lemma page_unsupported_witness :
  page (U := ascii_only) (flesch_reading_ease (U := ascii_only))
    (fun _ => None) (fun _ => None) (fun _ => [])
    (Some {| name := str "resume.txt"; data := [] |})
  = ([], Some [Spinner ([129504]%N ++ str " Analyzing your resume...")
                 [Error could_not_extract]]).
Proof.
  apply (@page_unsupported ascii_only
           (flesch_reading_ease (U := ascii_only))
           (fun _ => None) (fun _ => None) (fun _ => [])
           {| name := str "resume.txt"; data := [] |});
    vm_compute; reflexivity.
Defined.

Lemma page_scanned_pdf_witness :
  page (U := ascii_only) (flesch_reading_ease (U := ascii_only))
    (fun _ => Some [None; Some (str " "); None]) (fun _ => None)
    (fun _ => [])
    (Some {| name := str "scan.pdf"; data := [] |})
  = ([PdfOpen {| name := str "scan.pdf"; data := [] |}],
     Some [Spinner ([129504]%N ++ str " Analyzing your resume...")
             [Error could_not_extract]]).
Proof.
  apply (@page_scanned_pdf ascii_only
           (flesch_reading_ease (U := ascii_only))
           (fun _ => Some [None; Some (str " "); None]) (fun _ => None)
           (fun _ => [])
           {| name := str "scan.pdf"; data := [] |}
           [None; Some (str " "); None]);
    vm_compute; reflexivity.
Defined.

Lemma progress_within_bounds_witness :
  exists r v,
    analyze_resume (U := ascii_only) (flesch_reading_ease (U := ascii_only))
      sample_four = Some r
    /\ v = Float.ratio (score r) 100
    /\ Float.leb (Float.of_Z 0) v = true
    /\ Float.leb v (Float.of_Z 1) = true.
Proof.
  eexists. eexists. split; [vm_compute; reflexivity|].
  eapply (@progress_within_bounds ascii_only
            (flesch_reading_ease (U := ascii_only)) (fun _ => [])
            sample_four).
  - vm_compute. reflexivity.
  - unfold report. cbn [app In]. do 3 right. left. reflexivity.
Defined.

Lemma success_box_iff_full_score_witness :
  exists r,
    analyze_resume (U := ascii_only) (flesch_reading_ease (U := ascii_only))
      sample_none = Some r
    /\ (In success_box (report (fun _ => []) sample_none r)
        <-> score r = 100)
    /\ (forall s, In (suggestion_box s) (report (fun _ => []) sample_none r)
                  <-> In s (suggestions r))
    /\ (score r = 100 -> suggestions r = []).
Proof.
  eexists. split; [vm_compute; reflexivity|].
  apply (@success_box_iff_full_score ascii_only
           (flesch_reading_ease (U := ascii_only)) (fun _ => [])
           sample_none).
  vm_compute. reflexivity.
Defined.
